(** * openrsync receiver: the phased control flow of [rsync_receiver]

    A shallow embedding of [receiver.c].  The receiver is an orchestrator:
    almost every line is a call to a collaborator (the wire I/O helpers,
    the file-list code, the uploader, the downloader, system calls).  The
    embedding keeps the control flow of the C function and records every
    such call, in program order, in a trace of [event]s.  What the
    collaborators answer is supplied by an environment [env]; no
    assumption is made about those answers. *)

From Stdlib Require Import ZArith String Bool Lia.
From stdpp Require Import base list.

Local Open Scope Z_scope.

(** ** Constants of the system headers *)

Module Sys.

(** [<sys/stat.h>]: file type mask and the directory type (octal
    0170000 and 0040000). *)
Definition S_IFMT : Z := 61440.
Definition S_IFDIR : Z := 16384.
Definition S_ISDIR (m : Z) : bool := Z.land m S_IFMT =? S_IFDIR.

(** [<poll.h>]: event bits and the infinite timeout. *)
Definition POLLIN : Z := 1.
Definition POLLERR : Z := 8.
Definition POLLHUP : Z := 16.
Definition POLLNVAL : Z := 32.
Definition INFTIM : Z := -1.

(** A C integer used as a condition. *)
Definition truthy (z : Z) : bool := negb (z =? 0).

End Sys.
Import Sys.

(** ** Data *)

(** The fields of [struct opts] that the receiver reads. *)
Record opts := Opts {
  recursive : bool;
  dry_run : bool;
  preserve_times : bool;
  preserve_perms : bool;
  server : bool;
  del : bool
}.

(** The fields of [struct sess] that the receiver reads;
    [mplex_read_remain] changes under [io_read_flush] and lives with
    the mutable state below. *)
Record sess := Sess {
  sess_opts : opts;
  mplex_reads : bool
}.

(** [struct flist] with the part of [st] that is used here. *)
Record flstat := FlStat { mode : Z; mtime : Z }.
Record flist := FList { path : string; st : flstat }.

(** The macros of [extern.h] that print a message. *)
Inductive logkind := ERR | ERRX | ERRX1 | WARNX | LOG1 | LOG2 | LOG4.

(** One constructor per collaborator the receiver calls, with the
    arguments that differ from call to call.  [EvPostDir] marks the entry
    into [post_dir]; it is the only event that is not a call leaving the
    file. *)
Inductive event :=
| EvPledge (promises : string)
| EvWriteInt (fd v : Z)
| EvReadInt (fd : Z) (got : option Z)
| EvFlistRecv (fd : Z)
| EvStrdup (s : string)
| EvMkpath (p : string)
| EvUmask (m : Z)
| EvOpen (p : string)
| EvFlistGenLocal (p : string)
| EvUnveil (p perms : option string)
| EvFlistDel (dfd : Z) (dflsz flsz : nat)
| EvCalloc (n : nat)
| EvPoll (fd0 fd1 timeo : Z)
| EvUploader (i : nat) (fd1 : Z)
| EvReadFlush (fd : Z)
| EvDownloader (fd : Z)
| EvPostDir (i : nat)
| EvTime
| EvUtimensat (dfd : Z) (p : string) (atime mtime : Z)
| EvFchmodat (dfd : Z) (p : string) (m : Z)
| EvStatsRecv (fd : Z)
| EvClose (fd : Z)
| EvFlistFree (n : nat)
| EvFree
| EvMsg (k : logkind) (fmt : string).

Definition trace := list event.

(** ** The environment *)

(** What the collaborators answer during one turn of the transfer loop.
    [rsync_uploader] receives pointers to the cursor, to [pfd[1].fd] and
    the [newdir] array, [rsync_downloader] a pointer to the download
    handle: their new contents are part of the answer. *)
Record iter := Iter {
  poll_c : Z;
  poll_revents0 : Z;
  poll_revents1 : Z;
  up_c : Z;
  up_idx : nat;
  up_fd : Z;
  up_newdir : list (nat * Z);
  flush_ok : bool;
  flush_remain : Z;
  down_c : Z;
  down_dl : option nat
}.

(** What the collaborators answer outside the loop, one field per call
    site.  A call whose C result is tested with [!] answers with a [bool]
    or an [option] (the value stored through the pointer argument); a call
    whose result is compared with a number answers with that number.
    [flist_gen_local] stores a pointer that may be [NULL] on success. *)
Record env := Env {
  pledge_rc : Z;
  preamble_ok : bool;
  flist_recv_res : option (list flist);
  status_res : option Z;
  strdup_ok : bool;
  mkpath_rc : Z;
  umask_old : Z;
  open_rc : Z;
  gen_local_res : option (option (list flist));
  unveil_rc : Z;
  unveil_lock_rc : Z;
  flist_del_ok : bool;
  calloc_ok : bool;
  iters : list iter;
  time_now : nat -> Z;
  utimensat_rc : nat -> Z;
  fchmodat_rc : nat -> Z;
  phase_write_ok : bool;
  ack_res : option Z;
  stats_ok : bool;
  goodbye_ok : bool
}.

(** ** Local variables of [rsync_receiver] *)

Record locals := Locals {
  fl : list flist;          (* fl, flsz: NULL is the empty list *)
  dfl : option (list flist);(* dfl, dflsz: None is NULL *)
  rc : Z;
  dfd : Z;
  phase : Z;
  ioerror : Z;
  newdir : list Z;
  oumask : Z;
  pfd1_fd : Z;
  revents0 : Z;
  revents1 : Z;
  dl : option nat;
  idx : nat;                (* i *)
  read_remain : Z           (* sess->mplex_read_remain *)
}.

Definition init : locals :=
  {| fl := []; dfl := None; rc := 0; dfd := -1; phase := 0; ioerror := 0;
     newdir := []; oumask := 0; pfd1_fd := -1; revents0 := 0; revents1 := 0;
     dl := None; idx := 0%nat; read_remain := 0 |}.

Definition flsz (s : locals) : nat := length (fl s).
Definition dflsz (s : locals) : nat := from_option length 0%nat (dfl s).

Definition set_fl (v : list flist) (s : locals) : locals :=
  {| fl := v; dfl := dfl s; rc := rc s; dfd := dfd s; phase := phase s;
     ioerror := ioerror s; newdir := newdir s; oumask := oumask s;
     pfd1_fd := pfd1_fd s; revents0 := revents0 s; revents1 := revents1 s;
     dl := dl s; idx := idx s; read_remain := read_remain s |}.
Definition set_dfl (v : option (list flist)) (s : locals) : locals :=
  {| fl := fl s; dfl := v; rc := rc s; dfd := dfd s; phase := phase s;
     ioerror := ioerror s; newdir := newdir s; oumask := oumask s;
     pfd1_fd := pfd1_fd s; revents0 := revents0 s; revents1 := revents1 s;
     dl := dl s; idx := idx s; read_remain := read_remain s |}.
Definition set_rc (v : Z) (s : locals) : locals :=
  {| fl := fl s; dfl := dfl s; rc := v; dfd := dfd s; phase := phase s;
     ioerror := ioerror s; newdir := newdir s; oumask := oumask s;
     pfd1_fd := pfd1_fd s; revents0 := revents0 s; revents1 := revents1 s;
     dl := dl s; idx := idx s; read_remain := read_remain s |}.
Definition set_dfd (v : Z) (s : locals) : locals :=
  {| fl := fl s; dfl := dfl s; rc := rc s; dfd := v; phase := phase s;
     ioerror := ioerror s; newdir := newdir s; oumask := oumask s;
     pfd1_fd := pfd1_fd s; revents0 := revents0 s; revents1 := revents1 s;
     dl := dl s; idx := idx s; read_remain := read_remain s |}.
Definition set_phase (v : Z) (s : locals) : locals :=
  {| fl := fl s; dfl := dfl s; rc := rc s; dfd := dfd s; phase := v;
     ioerror := ioerror s; newdir := newdir s; oumask := oumask s;
     pfd1_fd := pfd1_fd s; revents0 := revents0 s; revents1 := revents1 s;
     dl := dl s; idx := idx s; read_remain := read_remain s |}.
Definition set_ioerror (v : Z) (s : locals) : locals :=
  {| fl := fl s; dfl := dfl s; rc := rc s; dfd := dfd s; phase := phase s;
     ioerror := v; newdir := newdir s; oumask := oumask s;
     pfd1_fd := pfd1_fd s; revents0 := revents0 s; revents1 := revents1 s;
     dl := dl s; idx := idx s; read_remain := read_remain s |}.
Definition set_newdir (v : list Z) (s : locals) : locals :=
  {| fl := fl s; dfl := dfl s; rc := rc s; dfd := dfd s; phase := phase s;
     ioerror := ioerror s; newdir := v; oumask := oumask s;
     pfd1_fd := pfd1_fd s; revents0 := revents0 s; revents1 := revents1 s;
     dl := dl s; idx := idx s; read_remain := read_remain s |}.
Definition set_oumask (v : Z) (s : locals) : locals :=
  {| fl := fl s; dfl := dfl s; rc := rc s; dfd := dfd s; phase := phase s;
     ioerror := ioerror s; newdir := newdir s; oumask := v;
     pfd1_fd := pfd1_fd s; revents0 := revents0 s; revents1 := revents1 s;
     dl := dl s; idx := idx s; read_remain := read_remain s |}.
Definition set_pfd1_fd (v : Z) (s : locals) : locals :=
  {| fl := fl s; dfl := dfl s; rc := rc s; dfd := dfd s; phase := phase s;
     ioerror := ioerror s; newdir := newdir s; oumask := oumask s;
     pfd1_fd := v; revents0 := revents0 s; revents1 := revents1 s;
     dl := dl s; idx := idx s; read_remain := read_remain s |}.
Definition set_revents (v0 v1 : Z) (s : locals) : locals :=
  {| fl := fl s; dfl := dfl s; rc := rc s; dfd := dfd s; phase := phase s;
     ioerror := ioerror s; newdir := newdir s; oumask := oumask s;
     pfd1_fd := pfd1_fd s; revents0 := v0; revents1 := v1;
     dl := dl s; idx := idx s; read_remain := read_remain s |}.
Definition set_dl (v : option nat) (s : locals) : locals :=
  {| fl := fl s; dfl := dfl s; rc := rc s; dfd := dfd s; phase := phase s;
     ioerror := ioerror s; newdir := newdir s; oumask := oumask s;
     pfd1_fd := pfd1_fd s; revents0 := revents0 s; revents1 := revents1 s;
     dl := v; idx := idx s; read_remain := read_remain s |}.
Definition set_idx (v : nat) (s : locals) : locals :=
  {| fl := fl s; dfl := dfl s; rc := rc s; dfd := dfd s; phase := phase s;
     ioerror := ioerror s; newdir := newdir s; oumask := oumask s;
     pfd1_fd := pfd1_fd s; revents0 := revents0 s; revents1 := revents1 s;
     dl := dl s; idx := v; read_remain := read_remain s |}.
Definition set_read_remain (v : Z) (s : locals) : locals :=
  {| fl := fl s; dfl := dfl s; rc := rc s; dfd := dfd s; phase := phase s;
     ioerror := ioerror s; newdir := newdir s; oumask := oumask s;
     pfd1_fd := pfd1_fd s; revents0 := revents0 s; revents1 := revents1 s;
     dl := dl s; idx := idx s; read_remain := v |}.

(** ** Control: a state, trace and exit monad *)

(** How a piece of the function body ends: it falls through with a
    value, jumps to the [out] label, dies in [assert], or is still
    waiting in [poll] when the recorded answers of the environment end. *)
Inductive result (A : Type) :=
| Ret (a : A)
| GotoOut
| AssertFail
| Pending.
Arguments Ret {A} a.
Arguments GotoOut {A}.
Arguments AssertFail {A}.
Arguments Pending {A}.

Definition M (A : Type) : Type := locals -> result A * locals * trace.

Definition ret {A} (a : A) : M A := fun s => (Ret a, s, []).

Definition bind {A B} (m : M A) (k : A -> M B) : M B := fun s =>
  match m s with
  | (Ret a, s1, t1) =>
      match k a s1 with (r, s2, t2) => (r, s2, t1 ++ t2) end
  | (GotoOut, s1, t1) => (GotoOut, s1, t1)
  | (AssertFail, s1, t1) => (AssertFail, s1, t1)
  | (Pending, s1, t1) => (Pending, s1, t1)
  end.

Notation "'let*' x ':=' m 'in' k" := (bind m (fun x => k))
  (at level 10, x name, m at level 100, k at level 200).
Notation "m >> k" := (bind m (fun _ => k))
  (at level 60, right associativity).

Definition get : M locals := fun s => (Ret s, s, []).
Definition modify (f : locals -> locals) : M unit := fun s => (Ret tt, f s, []).
Definition emit (ev : event) : M unit := fun s => (Ret tt, s, [ev]).
Definition goto_out {A} : M A := fun s => (GotoOut, s, []).
Definition assert_fail {A} : M A := fun s => (AssertFail, s, []).
Definition pending {A} : M A := fun s => (Pending, s, []).

(** A call to a collaborator: the call is recorded, the environment's
    answer is its value. *)
Definition call {A} (ev : event) (answer : A) : M A := emit ev >> ret answer.

(** [MACRO(sess, fmt, ...); goto out;] *)
Definition bail {A} (k : logkind) (fmt : string) : M A :=
  emit (EvMsg k fmt) >> goto_out.

(** How a call of [rsync_receiver] ends: it returns [rc], it dies in
    [assert], or it is still waiting in [poll]. *)
Inductive outcome :=
| Returned (rc : Z)
| Aborted
| Waiting.

(** ** The program *)

Section Receiver.

Variable e : env.
Variable ss : sess.
Variables fdin fdout : Z.
Variable root : string.

Let o : opts := sess_opts ss.

(** *** [post_dir] (lines 42-81)

    Returns zero on failure, non-zero on success.  [i] is the index of
    [f] in the file list; it selects the environment's answers and is
    not an argument of the C function. *)
Definition post_dir (i : nat) (rootfd : Z) (f : flist) (nd : Z) : M Z :=
  emit (EvPostDir i) >>
  if negb (recursive o) then ret 1
  else if dry_run o then ret 1
  else
    let* times_rc :=
      (if preserve_times o then
         let* now := call EvTime (time_now e i) in
         let* r := call (EvUtimensat rootfd (path f) now (mtime (st f)))
                        (utimensat_rc e i) in
         if r =? -1 then emit (EvMsg ERR "utimensat: %s") >> ret 0
         else emit (EvMsg LOG4 "%s: updated date") >> ret 1
       else ret 1) in
    if times_rc =? 0 then ret 0
    else if truthy nd || preserve_perms o then
      let* r := call (EvFchmodat rootfd (path f) (mode (st f)))
                     (fchmodat_rc e i) in
      if r =? -1 then emit (EvMsg ERR "fchmodat: %s") >> ret 0
      else emit (EvMsg LOG4 "%s: updated mode: %o") >> ret 1
    else ret 1.

(** *** [rsync_receiver], lines 103-229: up to the transfer loop *)

Definition preamble : M unit :=
  let* r := call (EvPledge "unveil rpath cpath wpath stdio fattr")
                 (pledge_rc e) in
  if r =? -1 then bail ERR "pledge"
  else if server o then ret tt
  else
    let* ok := call (EvWriteInt fdout 0) (preamble_ok e) in
    if negb ok then bail ERRX1 "io_write_int: zero premable" else ret tt.

Definition receive_list : M unit :=
  let* r := call (EvFlistRecv fdin) (flist_recv_res e) in
  match r with
  | None => bail ERRX1 "flist_recv"
  | Some l =>
      modify (set_fl l) >>
      let* v := call (EvReadInt fdin (status_res e)) (status_res e) in
      match v with
      | None => bail ERRX1 "io_read_int: io_error"
      | Some x =>
          modify (set_ioerror x) >>
          if negb (x =? 0) then bail ERRX1 "io_error is non-zero"
          else ret tt
      end
  end.

Definition empty_list_exit : M unit :=
  let* s := get in
  if (flsz s =? 0)%nat && negb (server o) then
    emit (EvMsg WARNX "receiver has empty file list: exiting") >>
    modify (set_rc 1) >> goto_out
  else if negb (server o) then
    emit (EvMsg LOG1 "Transfer starting: %zu files")
  else ret tt.

Definition prepare_destination : M unit :=
  emit (EvMsg LOG2 "%s: receiver destination") >>
  (if negb (dry_run o) then
     let* ok := call (EvStrdup root) (strdup_ok e) in
     if negb ok then bail ERR "strdup"
     else
       let* r := call (EvMkpath root) (mkpath_rc e) in
       if r <? 0 then
         emit (EvMsg ERRX1 "%s: mkpath") >> emit EvFree >> goto_out
       else emit EvFree
   else ret tt) >>
  let* m := call (EvUmask 0) (umask_old e) in
  modify (set_oumask m) >>
  if negb (dry_run o) then
    let* d := call (EvOpen root) (open_rc e) in
    modify (set_dfd d) >>
    if d =? -1 then bail ERR "%s: open" else ret tt
  else ret tt.

Definition enumerate_local : M unit :=
  if del o && recursive o then
    let* r := call (EvFlistGenLocal root) (gen_local_res e) in
    match r with
    | None => bail ERRX1 "%s: flist_gen_local"
    | Some d => modify (set_dfl d)
    end
  else ret tt.

Definition sandbox : M unit :=
  let* r := call (EvUnveil (Some root) (Some "rwc"%string)) (unveil_rc e) in
  if r =? -1 then bail ERR "%s: unveil"
  else
    let* r2 := call (EvUnveil None None) (unveil_lock_rc e) in
    if r2 =? -1 then bail ERR "%s: unveil (lock down)" else ret tt.

Definition delete_extraneous : M unit :=
  let* s := get in
  match dfl s with
  | Some d =>
      let* ok := call (EvFlistDel (dfd s) (length d) (flsz s))
                      (flist_del_ok e) in
      if negb ok then bail ERRX1 "%s: flist_del" else ret tt
  | None => ret tt
  end.

Definition allocate_newdir : M unit :=
  emit (EvMsg LOG2 "%s: ready for phase 1 data") >>
  let* s := get in
  let* ok := call (EvCalloc (flsz s)) (calloc_ok e) in
  if negb ok then bail ERR "calloc"
  else modify (set_newdir (replicate (flsz s) 0)).

(** [pfd[1].fd = -1] and the [i = 0] of the [for]. *)
Definition init_poll : M unit :=
  modify (set_pfd1_fd (-1)) >> modify (set_idx 0%nat).

Definition setup : M unit :=
  preamble >> receive_list >> empty_list_exit >> prepare_destination >>
  enumerate_local >> sandbox >> delete_extraneous >> allocate_newdir >>
  init_poll.

(** *** The transfer loop (lines 231-316) *)

(** Line 243. *)
Definition timeo (i n : nat) (fd1 : Z) : Z :=
  if (i =? n)%nat || negb (-1 =? fd1) then INFTIM else 0.

Definition store_newdir (ws : list (nat * Z)) (nd : list Z) : list Z :=
  foldl (fun acc w => <[fst w := snd w]> acc) nd ws.

Definition run_uploader (r : iter) : M unit :=
  let* s := get in
  if (idx s <? flsz s)%nat || truthy (Z.land POLLIN (revents1 s)) then
    let* c := call (EvUploader (idx s) (pfd1_fd s)) (up_c r) in
    modify (set_idx (up_idx r)) >>
    modify (set_pfd1_fd (up_fd r)) >>
    modify (set_newdir (store_newdir (up_newdir r) (newdir s))) >>
    if c <? 0 then bail ERRX1 "rsync_uploader" else ret tt
  else ret tt.

(** The value says whether the [continue] of line 293 is taken. *)
Definition flush_mplex (r : iter) : M bool :=
  if mplex_reads ss then
    let* ok := call (EvReadFlush fdin) (flush_ok r) in
    modify (set_read_remain (flush_remain r)) >>
    if negb ok then bail ERRX1 "io_read_flush"
    else ret (flush_remain r =? 0)
  else ret false.

(** The value says whether the [break] of line 305 is taken. *)
Definition run_downloader (r : iter) : M bool :=
  let* c := call (EvDownloader fdin) (down_c r) in
  modify (set_dl (down_dl r)) >>
  if c <? 0 then bail ERRX1 "rsync_downloader"
  else if c =? 0 then
    let* s := get in
    if phase s =? 0 then
      modify (set_phase (phase s + 1)) >>
      emit (EvMsg LOG2 "%s: receiver ready for phase 2 data") >>
      ret true
    else assert_fail
  else ret false.

(** One turn of the loop; the value says whether the loop is left. *)
Definition loop_body (r : iter) : M bool :=
  let* s := get in
  let* c := call (EvPoll fdin (pfd1_fd s) (timeo (idx s) (flsz s) (pfd1_fd s)))
                 (poll_c r) in
  modify (set_revents (poll_revents0 r) (poll_revents1 r)) >>
  if -1 =? c then bail ERR "poll"
  else if truthy (Z.land (poll_revents0 r) (Z.lor POLLERR POLLNVAL)) then
    bail ERRX "poll: bad fd"
  else if truthy (Z.land (poll_revents1 r) (Z.lor POLLERR POLLNVAL)) then
    bail ERRX "poll: bad fd"
  else if truthy (Z.land (poll_revents0 r) POLLHUP) then
    bail ERRX "poll: hangup"
  else if truthy (Z.land (poll_revents1 r) POLLHUP) then
    bail ERRX "poll: hangup"
  else
    run_uploader r >>
    if truthy (Z.land POLLIN (poll_revents0 r)) then
      let* skip := flush_mplex r in
      if skip then ret false else run_downloader r
    else ret false.

(** [for (i = 0;;)]: the loop has no exit condition of its own.  It is
    run against the recorded turns of the environment; when they are
    used up the receiver is still waiting in [poll]. *)
Fixpoint transfer_loop (rs : list iter) : M unit :=
  match rs with
  | [] => pending
  | r :: rs' =>
      let* leave := loop_body r in
      if leave then ret tt else transfer_loop rs'
  end.

(** *** After the loop (lines 318-362) *)

(** The body of the [for] of line 322 from index [i] on; [l] is the
    part of [fl] from [i], so its head is [fl[i]]. *)
Fixpoint fixup_from (i : nat) (l : list flist) : M unit :=
  match l with
  | [] => ret tt
  | f :: l' =>
      (if negb (S_ISDIR (mode (st f))) then ret tt
       else
         let* s := get in
         let* r := post_dir i (dfd s) f (nth i (newdir s) 0) in
         if r =? 0 then goto_out else ret tt) >>
      modify (set_idx (S i)) >>
      fixup_from (S i) l'
  end.

Definition fixup_dirs : M unit :=
  if preserve_times o || preserve_perms o then
    modify (set_idx 0%nat) >>
    let* s := get in fixup_from 0 (fl s)
  else ret tt.

Definition phase_handshake : M unit :=
  let* s := get in
  if 1 =? phase s then
    let* ok := call (EvWriteInt fdout (-1)) (phase_write_ok e) in
    if negb ok then bail ERRX1 "io_write_int: send complete"
    else
      let* v := call (EvReadInt fdin (ack_res e)) (ack_res e) in
      match v with
      | None => bail ERRX1 "io_read_int: phase ack"
      | Some x =>
          modify (set_ioerror x) >>
          if negb (-1 =? x) then bail ERRX "expected phase ack"
          else modify (set_phase (phase s + 1))
      end
  else ret tt.

Definition read_stats : M unit :=
  if server o then ret tt
  else
    let* ok := call (EvStatsRecv fdin) (stats_ok e) in
    if negb ok then bail ERRX1 "sess_stats_recv" else ret tt.

Definition goodbye : M unit :=
  let* ok := call (EvWriteInt fdout (-1)) (goodbye_ok e) in
  if negb ok then bail ERRX1 "io_write_int: update complete"
  else
    emit (EvMsg LOG2 "receiver finished updating") >>
    modify (set_rc 1).

Definition finish : M unit :=
  fixup_dirs >> phase_handshake >> read_stats >> goodbye.

Definition body : M unit :=
  setup >> transfer_loop (iters e) >> finish.

(** The [out] label. *)
Definition cleanup (s : locals) : trace :=
  (if -1 =? dfd s then [] else [EvClose (dfd s)]) ++
  [EvFlistFree (flsz s); EvFlistFree (dflsz s); EvFree].

Definition rsync_receiver : outcome * trace :=
  match body init with
  | (Ret _, s, t) | (GotoOut, s, t) => (Returned (rc s), t ++ cleanup s)
  | (AssertFail, _, t) => (Aborted, t)
  | (Pending, _, t) => (Waiting, t)
  end.

End Receiver.

(** ** Reading traces *)

Definition is_gen_local (ev : event) : bool :=
  match ev with EvFlistGenLocal _ => true | _ => false end.
Definition is_unveil (ev : event) : bool :=
  match ev with EvUnveil _ _ => true | _ => false end.
Definition is_flist_del (ev : event) : bool :=
  match ev with EvFlistDel _ _ _ => true | _ => false end.
Definition is_flist_recv (ev : event) : bool :=
  match ev with EvFlistRecv _ => true | _ => false end.
Definition is_preamble (ev : event) : bool :=
  match ev with EvWriteInt _ v => v =? 0 | _ => false end.
Definition is_sentinel (ev : event) : bool :=
  match ev with EvWriteInt _ v => v =? -1 | _ => false end.
Definition is_stats (ev : event) : bool :=
  match ev with EvStatsRecv _ => true | _ => false end.
Definition is_post_dir (ev : event) : bool :=
  match ev with EvPostDir _ => true | _ => false end.
Definition is_meta_syscall (ev : event) : bool :=
  match ev with EvUtimensat _ _ _ _ | EvFchmodat _ _ _ => true | _ => false end.
Definition is_mkpath (ev : event) : bool :=
  match ev with EvMkpath _ => true | _ => false end.
Definition is_open (ev : event) : bool :=
  match ev with EvOpen _ => true | _ => false end.
Definition is_umask (ev : event) : bool :=
  match ev with EvUmask _ => true | _ => false end.
Definition is_transfer (ev : event) : bool :=
  match ev with
  | EvPoll _ _ _ | EvUploader _ _ | EvReadFlush _ | EvDownloader _ => true
  | _ => false
  end.

(** The events each stage of the function can produce. *)
Definition setup_event (ev : event) : bool :=
  match ev with
  | EvPledge _ | EvWriteInt _ _ | EvReadInt _ _ | EvFlistRecv _ | EvStrdup _
  | EvMkpath _ | EvUmask _ | EvOpen _ | EvFlistGenLocal _ | EvUnveil _ _
  | EvFlistDel _ _ _ | EvCalloc _ | EvFree | EvMsg _ _ => true
  | _ => false
  end.
Definition loop_event (ev : event) : bool :=
  match ev with
  | EvPoll _ _ _ | EvUploader _ _ | EvReadFlush _ | EvDownloader _
  | EvMsg _ _ => true
  | _ => false
  end.
Definition fixup_event (ev : event) : bool :=
  match ev with
  | EvPostDir _ | EvTime | EvUtimensat _ _ _ _ | EvFchmodat _ _ _
  | EvMsg _ _ => true
  | _ => false
  end.
Definition cleanup_event (ev : event) : bool :=
  match ev with
  | EvClose _ | EvFlistFree _ | EvFree => true
  | _ => false
  end.

Definition finish_event (ev : event) : bool :=
  fixup_event ev || is_sentinel ev || is_stats ev ||
  match ev with EvReadInt _ _ => true | _ => false end.
Definition late_event (ev : event) : bool :=
  loop_event ev || finish_event ev || cleanup_event ev.

(** Number of events of a kind. *)
Definition count (p : event -> bool) (t : trace) : nat :=
  length (List.filter p t).

(** No event of a kind. *)
Definition none (p : event -> bool) (t : trace) : bool :=
  forallb (fun ev => negb (p ev)) t.

(** Every [p] event of the trace comes strictly before every [q] event. *)
Definition precedes (p q : event -> bool) (t : trace) : Prop :=
  forall (i j : nat) (x y : event),
    t !! i = Some x -> t !! j = Some y ->
    p x = true -> q y = true -> (i < j)%nat.

Fixpoint precedesb (p q : event -> bool) (t : trace) : bool :=
  match t with
  | [] => true
  | x :: t' =>
      (negb (q x) || (negb (p x) && none p t')) && precedesb p q t'
  end.

(** Number of directories in a file list. *)
Definition count_dirs (l : list flist) : nat :=
  length (List.filter (fun f => S_ISDIR (mode (st f))) l).

(** The indices of the directories of a file list whose first entry has
    index [i], in the order of the list. *)
Fixpoint dir_indices (i : nat) (l : list flist) : list nat :=
  match l with
  | [] => []
  | f :: l' =>
      (if S_ISDIR (mode (st f)) then [i] else []) ++ dir_indices (S i) l'
  end.

(** The locals that only the code before the loop and [goodbye] write. *)
Definition same_frame (s s' : locals) : Prop :=
  fl s' = fl s /\ dfl s' = dfl s /\ dfd s' = dfd s /\ rc s' = rc s.

(** The role of the process: the receiver is the top-level driver (the
    client the user started) unless it runs as the server-side helper. *)
Definition top_level (o : opts) : bool := negb (server o).

(** What [rsync_receiver] writes and reads on the wire after the
    directory fix-up, when the phase counter is [ph] on entry. *)
Definition handshake (fdin fdout : Z) (srv : bool) (ph : Z) : trace :=
  (if 1 =? ph then [EvWriteInt fdout (-1); EvReadInt fdin (Some (-1))]
   else []) ++
  (if srv then [] else [EvStatsRecv fdin]) ++
  [EvWriteInt fdout (-1)].



(** The steps before the sandbox succeed: the pledge, the preamble (top
    level only), the reception of a list that does not trigger the
    empty-list exit, a zero status, the preparation of the destination
    (skipped in a dry run) and the enumeration (only with deletion in a
    recursive run). *)
Definition reaches_sandbox (e : env) (o : opts) : Prop :=
  pledge_rc e <> -1 /\
  (server o = true \/ preamble_ok e = true) /\
  (exists l, flist_recv_res e = Some l /\ (l <> [] \/ server o = true)) /\
  status_res e = Some 0 /\
  (dry_run o = false ->
   strdup_ok e = true /\ 0 <= mkpath_rc e /\ open_rc e <> -1) /\
  (del o = true -> recursive o = true -> gen_local_res e <> None).

(** The whole deleter pass, enumeration and removal, comes before the
    sandbox. *)
Definition deleter_before_sandbox (t : trace) : Prop :=
  precedes is_gen_local is_unveil t /\ precedes is_flist_del is_unveil t.

(** A dry run never calls [unveil]. *)
Definition no_sandbox_in_dry_run (o : opts) (t : trace) : Prop :=
  dry_run o = true -> none is_unveil t = true.

(** The two calls that install the sandbox (lines 195-201), in the order
    of the program: the unveil of the destination root, then the
    lock-down. *)
Definition sandbox_calls (root : string) : trace :=
  [EvUnveil (Some root) (Some "rwc"%string); EvUnveil None None].

(** The [unveil] calls of a session that gets as far as line 195: the
    unveil of the root, and the lock-down unless that unveil returned -1. *)
Definition sandbox_attempt (e : env) (root : string) : trace :=
  EvUnveil (Some root) (Some "rwc"%string) ::
  (if unveil_rc e =? -1 then [] else [EvUnveil None None]).

(** The deleter pass as the program runs it: the enumeration, directly
    followed by the two sandbox calls, directly followed by the removal
    [removal]; none of these calls anywhere else in the trace. *)
Definition deleter_around_sandbox
    (root : string) (removal : event) (t : trace) : Prop :=
  exists pre post,
    t = pre ++ [EvFlistGenLocal root] ++ sandbox_calls root ++ [removal]
            ++ post /\
    none is_gen_local pre && none is_unveil pre && none is_flist_del pre
    = true /\
    none is_gen_local post && none is_unveil post && none is_flist_del post
    = true.

(** The enumeration is the call directly before the unveil of the root,
    and no enumeration, unveil or removal comes before it. *)
Definition enumeration_then_unveil (root : string) (t : trace) : Prop :=
  exists pre post,
    t = pre ++ [EvFlistGenLocal root; EvUnveil (Some root) (Some "rwc"%string)]
            ++ post /\
    none is_gen_local pre && none is_unveil pre && none is_flist_del pre
    = true.

(** The preamble is written only by a process that is not the top-level
    driver, and before the file list is received. *)
Definition preamble_only_helper (o : opts) (t : trace) : Prop :=
  ((exists ev, ev ∈ t /\ is_preamble ev = true) -> top_level o = false) /\
  precedes is_preamble is_flist_recv t.

(** As many fix-up attempts as directories in the list, and none in a
    dry run or a run without recursion; [attempt] says which events count
    as an attempt. *)
Definition fixup_attempts_match
    (attempt : event -> bool) (o : opts) (l : list flist) (t : trace) : Prop :=
  count attempt t = count_dirs l /\
  (dry_run o = true \/ recursive o = false -> count attempt t = 0%nat).

(** The stages a call of [rsync_receiver] goes through, and how it ends
    after each. *)
Inductive run_shape (e : env) (ss : sess) (fdin fdout : Z) (root : string) :
  outcome -> trace -> Prop :=
| run_setup_exit s1 t1 :
    setup e ss fdin fdout root init = (GotoOut, s1, t1) ->
    run_shape e ss fdin fdout root (Returned (rc s1)) (t1 ++ cleanup s1)
| run_loop_exit s1 t1 s2 t2 :
    setup e ss fdin fdout root init = (Ret tt, s1, t1) ->
    transfer_loop ss fdin (iters e) s1 = (GotoOut, s2, t2) ->
    run_shape e ss fdin fdout root (Returned (rc s2))
      (t1 ++ t2 ++ cleanup s2)
| run_loop_wait s1 t1 s2 t2 :
    setup e ss fdin fdout root init = (Ret tt, s1, t1) ->
    transfer_loop ss fdin (iters e) s1 = (Pending, s2, t2) ->
    run_shape e ss fdin fdout root Waiting (t1 ++ t2)
| run_finish_exit s1 t1 s2 t2 s3 t3 :
    setup e ss fdin fdout root init = (Ret tt, s1, t1) ->
    transfer_loop ss fdin (iters e) s1 = (Ret tt, s2, t2) ->
    finish e ss fdin fdout s2 = (GotoOut, s3, t3) ->
    run_shape e ss fdin fdout root (Returned (rc s3))
      (t1 ++ t2 ++ t3 ++ cleanup s3)
| run_done s1 t1 s2 t2 s3 t3 :
    setup e ss fdin fdout root init = (Ret tt, s1, t1) ->
    transfer_loop ss fdin (iters e) s1 = (Ret tt, s2, t2) ->
    finish e ss fdin fdout s2 = (Ret tt, s3, t3) ->
    run_shape e ss fdin fdout root (Returned (rc s3))
      (t1 ++ t2 ++ t3 ++ cleanup s3).

(** ** Sample sessions *)

Module Sample.

Definition dir_mode : Z := 16877.   (* 040755 *)
Definition file_mode : Z := 33188.  (* 0100644 *)

Definition sub : flist := FList "sub" (FlStat dir_mode 1000).
Definition sub_deep : flist := FList "sub/deep" (FlStat dir_mode 1000).
Definition sub_a : flist := FList "sub/a.txt" (FlStat file_mode 1000).
Definition stale : flist := FList "old.txt" (FlStat file_mode 900).

(** A turn in which the uploader examines all [n] entries and the
    downloader reports progress, and the turn in which the downloader
    reports the end of phase 1. *)
Definition turn_progress (n : nat) : iter :=
  {| poll_c := 1; poll_revents0 := POLLIN; poll_revents1 := 0;
     up_c := 1; up_idx := n; up_fd := -1; up_newdir := [(0%nat, 1)];
     flush_ok := true; flush_remain := 4;
     down_c := 1; down_dl := Some 0%nat |}.
Definition turn_done (n : nat) : iter :=
  {| poll_c := 1; poll_revents0 := POLLIN; poll_revents1 := 0;
     up_c := 1; up_idx := n; up_fd := -1; up_newdir := [];
     flush_ok := true; flush_remain := 4;
     down_c := 0; down_dl := None |}.

(** Every collaborator succeeds; the sender lists [l], the destination
    holds [stale] besides. *)
Definition cooperative (l : list flist) : env :=
  {| pledge_rc := 0; preamble_ok := true;
     flist_recv_res := Some l; status_res := Some 0;
     strdup_ok := true; mkpath_rc := 0; umask_old := 18; open_rc := 3;
     gen_local_res := Some (Some [stale]);
     unveil_rc := 0; unveil_lock_rc := 0;
     flist_del_ok := true; calloc_ok := true;
     iters := [turn_progress (length l); turn_done (length l)];
     time_now := fun _ => 1700000000;
     utimensat_rc := fun _ => 0; fchmodat_rc := fun _ => 0;
     phase_write_ok := true; ack_res := Some (-1);
     stats_ok := true; goodbye_ok := true |}.

(** The same, but the sender reports an error with its list. *)
Definition bad_status (l : list flist) (v : Z) : env :=
  {| pledge_rc := 0; preamble_ok := true;
     flist_recv_res := Some l; status_res := Some v;
     strdup_ok := true; mkpath_rc := 0; umask_old := 18; open_rc := 3;
     gen_local_res := Some (Some [stale]);
     unveil_rc := 0; unveil_lock_rc := 0;
     flist_del_ok := true; calloc_ok := true;
     iters := [turn_progress (length l); turn_done (length l)];
     time_now := fun _ => 1700000000;
     utimensat_rc := fun _ => 0; fchmodat_rc := fun _ => 0;
     phase_write_ok := true; ack_res := Some (-1);
     stats_ok := true; goodbye_ok := true |}.

(** Option sets: [-r --delete -t -p], the same with [-n], plain [-r],
    and [-r -p]. *)
Definition mirror : opts :=
  {| recursive := true; dry_run := false; preserve_times := true;
     preserve_perms := true; server := false; del := true |}.
Definition mirror_dry : opts :=
  {| recursive := true; dry_run := true; preserve_times := true;
     preserve_perms := true; server := false; del := true |}.
Definition plain : opts :=
  {| recursive := true; dry_run := false; preserve_times := false;
     preserve_perms := false; server := false; del := false |}.
Definition perms : opts :=
  {| recursive := true; dry_run := false; preserve_times := false;
     preserve_perms := true; server := false; del := false |}.

Definition client (o : opts) : sess := {| sess_opts := o; mplex_reads := false |}.

Definition run (e : env) (o : opts) : outcome * trace :=
  rsync_receiver e (client o) 0 1 "dst".

End Sample.

(** ** More ways to read a trace *)

Definition is_close (ev : event) : bool :=
  match ev with EvClose _ => true | _ => false end.
Definition is_flist_free (ev : event) : bool :=
  match ev with EvFlistFree _ => true | _ => false end.
Definition is_poll (ev : event) : bool :=
  match ev with EvPoll _ _ _ => true | _ => false end.
Definition is_uploader (ev : event) : bool :=
  match ev with EvUploader _ _ => true | _ => false end.
Definition is_downloader (ev : event) : bool :=
  match ev with EvDownloader _ => true | _ => false end.
Definition is_flush (ev : event) : bool :=
  match ev with EvReadFlush _ => true | _ => false end.
Definition is_utimensat (ev : event) : bool :=
  match ev with EvUtimensat _ _ _ _ => true | _ => false end.
Definition is_fchmodat (ev : event) : bool :=
  match ev with EvFchmodat _ _ _ => true | _ => false end.
Definition is_pledge (ev : event) : bool :=
  match ev with EvPledge _ => true | _ => false end.

(** The lock-down call [unveil(NULL, NULL)]. *)
Definition is_lockdown (ev : event) : bool :=
  match ev with EvUnveil None None => true | _ => false end.

(** A message of one of the error macros. *)
Definition is_error (ev : event) : bool :=
  match ev with
  | EvMsg ERR _ | EvMsg ERRX _ | EvMsg ERRX1 _ => true
  | _ => false
  end.

(** The calls that work on the destination tree or on the transfer. *)
Definition needs_sandbox (ev : event) : bool :=
  is_transfer ev || is_flist_del ev || is_meta_syscall ev.

(** The file list a session holds: the one [flist_recv] stored, if it
    was called and succeeded; likewise the local list of
    [flist_gen_local]. *)
Definition received_list (e : env) (t : trace) : list flist :=
  if none is_flist_recv t then [] else from_option id [] (flist_recv_res e).
Definition local_list (e : env) (t : trace) : option (list flist) :=
  if none is_gen_local t then None else from_option id None (gen_local_res e).

(** The tests of lines 245-260: [poll] failed, or it reports an error,
    an invalid descriptor or a hangup on either descriptor. *)
Definition poll_fatal (r : iter) : bool :=
  (-1 =? poll_c r) ||
  truthy (Z.land (poll_revents0 r) (Z.lor POLLERR POLLNVAL)) ||
  truthy (Z.land (poll_revents1 r) (Z.lor POLLERR POLLNVAL)) ||
  truthy (Z.land (poll_revents0 r) POLLHUP) ||
  truthy (Z.land (poll_revents1 r) POLLHUP).

(** Line 287: data can be read from the sender. *)
Definition inbound_ready (r : iter) : bool :=
  truthy (Z.land POLLIN (poll_revents0 r)).

(** Line 268: files are left to examine, or the second descriptor can be
    read. *)
Definition upload_due (r : iter) (s : locals) : bool :=
  (idx s <? flsz s)%nat || truthy (Z.land POLLIN (poll_revents1 r)).



(** A turn whose answers let the loop go on: nothing fails, and the
    downloader, if it is reached, reports progress. *)
Definition turn_continues (ss : sess) (r : iter) : bool :=
  negb (poll_fatal r) && (0 <=? up_c r) &&
  (if inbound_ready r then
     if mplex_reads ss then
       flush_ok r && ((flush_remain r =? 0) || (0 <? down_c r))
     else 0 <? down_c r
   else true).

(** A turn whose answers end phase 1: nothing fails, the downloader is
    reached and returns zero. *)
Definition turn_finishes (ss : sess) (r : iter) : bool :=
  negb (poll_fatal r) && (0 <=? up_c r) && inbound_ready r &&
  (if mplex_reads ss then flush_ok r && negb (flush_remain r =? 0) else true) &&
  (down_c r =? 0).

(** [post_dir] by cases: it acts at all; its time stamp step fails; the
    mode is to be applied to a directory whose flag is [nd]. *)
Definition fixup_active (o : opts) : bool := recursive o && negb (dry_run o).
Definition times_fail (e : env) (o : opts) (i : nat) : bool :=
  fixup_active o && preserve_times o && (utimensat_rc e i =? -1).
Definition mode_due (e : env) (o : opts) (i : nat) (nd : Z) : bool :=
  fixup_active o && negb (times_fail e o i) && (truthy nd || preserve_perms o).

(** Every collaborator outside the loop succeeds. *)
Definition cooperates (e : env) (o : opts) : Prop :=
  reaches_sandbox e o /\
  unveil_rc e <> -1 /\ unveil_lock_rc e <> -1 /\
  flist_del_ok e = true /\ calloc_ok e = true /\
  (forall i, utimensat_rc e i <> -1) /\ (forall i, fchmodat_rc e i <> -1) /\
  phase_write_ok e = true /\ ack_res e = Some (-1) /\
  (server o = true \/ stats_ok e = true) /\ goodbye_ok e = true.

(** ** Sample sessions that go wrong *)

Module Faults.
Import Sample.

(** The environment [e] with other turns, another answer to the phase
    sentinel, or a failing goodbye. *)
Definition with_iters (e : env) (its : list iter) : env :=
  {| pledge_rc := pledge_rc e; preamble_ok := preamble_ok e;
     flist_recv_res := flist_recv_res e; status_res := status_res e;
     strdup_ok := strdup_ok e; mkpath_rc := mkpath_rc e;
     umask_old := umask_old e; open_rc := open_rc e;
     gen_local_res := gen_local_res e;
     unveil_rc := unveil_rc e; unveil_lock_rc := unveil_lock_rc e;
     flist_del_ok := flist_del_ok e; calloc_ok := calloc_ok e;
     iters := its;
     time_now := time_now e; utimensat_rc := utimensat_rc e;
     fchmodat_rc := fchmodat_rc e;
     phase_write_ok := phase_write_ok e; ack_res := ack_res e;
     stats_ok := stats_ok e; goodbye_ok := goodbye_ok e |}.
Definition with_ack (e : env) (a : option Z) : env :=
  {| pledge_rc := pledge_rc e; preamble_ok := preamble_ok e;
     flist_recv_res := flist_recv_res e; status_res := status_res e;
     strdup_ok := strdup_ok e; mkpath_rc := mkpath_rc e;
     umask_old := umask_old e; open_rc := open_rc e;
     gen_local_res := gen_local_res e;
     unveil_rc := unveil_rc e; unveil_lock_rc := unveil_lock_rc e;
     flist_del_ok := flist_del_ok e; calloc_ok := calloc_ok e;
     iters := iters e;
     time_now := time_now e; utimensat_rc := utimensat_rc e;
     fchmodat_rc := fchmodat_rc e;
     phase_write_ok := phase_write_ok e; ack_res := a;
     stats_ok := stats_ok e; goodbye_ok := goodbye_ok e |}.
Definition with_goodbye (e : env) (ok : bool) : env :=
  {| pledge_rc := pledge_rc e; preamble_ok := preamble_ok e;
     flist_recv_res := flist_recv_res e; status_res := status_res e;
     strdup_ok := strdup_ok e; mkpath_rc := mkpath_rc e;
     umask_old := umask_old e; open_rc := open_rc e;
     gen_local_res := gen_local_res e;
     unveil_rc := unveil_rc e; unveil_lock_rc := unveil_lock_rc e;
     flist_del_ok := flist_del_ok e; calloc_ok := calloc_ok e;
     iters := iters e;
     time_now := time_now e; utimensat_rc := utimensat_rc e;
     fchmodat_rc := fchmodat_rc e;
     phase_write_ok := phase_write_ok e; ack_res := ack_res e;
     stats_ok := stats_ok e; goodbye_ok := ok |}.


(** Option set [-r -t]. *)
Definition times : opts :=
  {| recursive := true; dry_run := false; preserve_times := true;
     preserve_perms := false; server := false; del := false |}.

End Faults.

(** ** Generic facts *)

Section TraceFacts.

Implicit Types (p q : event -> bool) (t : trace).

Lemma none_app p t1 t2 : none p (t1 ++ t2) = none p t1 && none p t2.
Proof. unfold none. apply forallb_app. Qed.

Lemma none_spec p t :
  none p t = true <-> forall ev, ev ∈ t -> p ev = false.
Proof.
  unfold none. rewrite forallb_forall. split; intros H ev Hin.
  - apply list_elem_of_In, H in Hin. now apply negb_true_iff.
  - apply negb_true_iff, H. now apply list_elem_of_In.
Qed.

Lemma none_weaken p q t :
  (forall ev, q ev = true -> p ev = false) ->
  forallb q t = true -> none p t = true.
Proof.
  intros Hpq Hq. unfold none. rewrite forallb_forall in *.
  intros ev Hin. apply negb_true_iff. auto.
Qed.

Lemma count_app p t1 t2 : count p (t1 ++ t2) = (count p t1 + count p t2)%nat.
Proof. unfold count. now rewrite List.filter_app, length_app. Qed.

Lemma count_none p t : none p t = true -> count p t = 0%nat.
Proof.
  unfold count, none. induction t as [|x t IH]; simpl; [easy|].
  intros [Hx Ht]%andb_true_iff. apply negb_true_iff in Hx.
  rewrite Hx. auto.
Qed.

Lemma filter_none p t : none p t = true -> List.filter p t = [].
Proof.
  unfold none. induction t as [|x t IH]; simpl; [easy|].
  intros [Hx Ht]%andb_true_iff. apply negb_true_iff in Hx.
  rewrite Hx. auto.
Qed.

Lemma precedesb_none p q t : none p t = true -> precedesb p q t = true.
Proof.
  induction t as [|x t IH]; simpl; [easy|].
  unfold none in *. simpl. intros [Hx Ht]%andb_true_iff.
  rewrite Hx, Ht, IH by assumption. simpl. now rewrite orb_true_r.
Qed.

Lemma precedesb_app p q t1 t2 :
  precedesb p q t1 = true -> none p t2 = true ->
  precedesb p q (t1 ++ t2) = true.
Proof.
  intros H1 H2. induction t1 as [|x t1 IH]; simpl in *.
  - now apply precedesb_none.
  - apply andb_true_iff in H1 as [Hx Ht]. rewrite IH by assumption.
    rewrite andb_true_r. apply orb_true_iff in Hx as [Hx|Hx].
    + now rewrite Hx.
    + apply andb_true_iff in Hx as [Hp Hn].
      rewrite Hp, none_app, Hn, H2. simpl. now rewrite orb_true_r.
Qed.

Lemma precedesb_sound p q t : precedesb p q t = true -> precedes p q t.
Proof.
  induction t as [|z t IH]; intros H i j x y Hi Hj Hp Hq.
  - discriminate.
  - simpl in H. apply andb_true_iff in H as [Hz Ht].
    destruct j as [|j]; simpl in Hj.
    + injection Hj as ->. rewrite Hq in Hz. simpl in Hz.
      apply andb_true_iff in Hz as [Hpz Hn].
      destruct i as [|i]; simpl in Hi.
      * injection Hi as ->. rewrite Hp in Hpz. discriminate.
      * rewrite none_spec in Hn.
        apply list_elem_of_lookup_2, Hn in Hi. congruence.
    + destruct i as [|i]; [lia|]. simpl in Hi.
      specialize (IH Ht i j x y Hi Hj Hp Hq). lia.
Qed.

End TraceFacts.

(** ** Proof automation *)

(** Unfold the monad. *)
Ltac unfold_m :=
  unfold bail, call, emit, modify, get, ret, goto_out, assert_fail, pending, bind in *.

(** The condition the program tests next: the innermost scrutinee of
    the nest of matches the goal has been reduced to. *)
Ltac blocker t :=
  lazymatch t with
  | match ?x with _ => _ end => blocker x
  | (match ?x with _ => _ end) _ => blocker x
  | negb ?x => blocker x
  | ?x && _ => blocker x
  | ?x || _ => blocker x
  | _ => t
  end.

(** Follow the program by one test, in both directions. *)
Ltac step :=
  lazymatch goal with
  | |- ?G => let b := blocker G in
             lazymatch b with
             | G => fail
             | _ => destruct b eqn:?
             end
  end; simpl.

(** ** What each stage does *)

Section StageFacts.
Variable e : env.
Variable ss : sess.
Variables fdin fdout : Z.
Variable root : string.

Local Abbreviation o := (sess_opts ss).

Lemma loop_body_spec (r : iter) (s : locals) :
  match loop_body ss fdin r s with
  | (res, s', t) =>
      forallb loop_event t = true /\ same_frame s s' /\
      match res with
      | Ret true => phase s = 0 /\ phase s' = 1
      | Ret false | GotoOut => phase s' = phase s
      | AssertFail => phase s <> 0
      | Pending => False
      end
  end.
Proof.
  unfold loop_body, run_uploader, flush_mplex, run_downloader, same_frame.
  unfold_m. simpl.
  repeat step; repeat split; try reflexivity; try lia.
Qed.

Lemma transfer_loop_spec (rs : list iter) (s : locals) :
  match transfer_loop ss fdin rs s with
  | (res, s', t) =>
      forallb loop_event t = true /\ same_frame s s' /\
      match res with
      | Ret _ => phase s = 0 /\ phase s' = 1
      | GotoOut | Pending => phase s' = phase s
      | AssertFail => phase s <> 0
      end
  end.
Proof.
  revert s. induction rs as [|r rs IH]; intros s.
  - simpl. unfold pending, same_frame. repeat split.
  - simpl. unfold bind.
    pose proof (loop_body_spec r s) as Hb.
    destruct (loop_body ss fdin r s) as [[res s1] t1].
    destruct Hb as (Ht1 & Hf1 & Hp1).
    destruct res as [[]| | |]; try (now auto); try contradiction.
    + unfold ret. rewrite app_nil_r. auto.
    + specialize (IH s1).
      destruct (transfer_loop ss fdin rs s1) as [[res2 s2] t2].
      destruct IH as (Ht2 & Hf2 & Hp2).
      rewrite forallb_app, Ht1, Ht2.
      unfold same_frame in *.
      repeat split; try (etransitivity; [apply Hf2 | apply Hf1]).
      rewrite Hp1 in Hp2. destruct res2; auto; lia.
Qed.

Lemma setup_spec :
  match setup e ss fdin fdout root init with
  | (res, s, t) =>
      forallb setup_event t = true /\
      precedesb is_gen_local is_unveil t = true /\
      precedesb is_unveil is_flist_del t = true /\
      precedesb is_preamble is_flist_recv t = true /\
      none is_sentinel t = true /\
      implb (server o) (none is_preamble t) = true /\
      implb (dry_run o) (none is_mkpath t && none is_open t) = true /\
      phase s = 0 /\
      match res with
      | Ret _ =>
          rc s = 0 /\ flist_recv_res e = Some (fl s) /\
          (flsz s =? 0)%nat && negb (server o) = false
      | GotoOut =>
          rc s = 0 \/
          (rc s = 1 /\ flist_recv_res e = Some (fl s) /\
           (flsz s =? 0)%nat = true /\ server o = false)
      | AssertFail | Pending => False
      end
  end.
Proof.
  unfold setup, preamble, receive_list, empty_list_exit,
    prepare_destination, enumerate_local, sandbox, delete_extraneous,
    allocate_newdir, init_poll.
  unfold_m. unfold flsz.
  simpl. repeat step.
  all: try destruct (server (sess_opts ss)); try destruct (dry_run (sess_opts ss)).
  all: simpl; repeat split; auto.
  all: try (match goal with
            | H : (length _ =? 0)%nat = _ |- _ => rewrite H
            end; reflexivity).
Qed.

Lemma post_dir_spec (i : nat) (rootfd : Z) (f : flist) (nd : Z) (s : locals) :
  match post_dir e ss i rootfd f nd s with
  | (res, s', t) =>
      s' = s /\ forallb fixup_event t = true /\
      count is_post_dir t = 1%nat /\
      implb (dry_run o || negb (recursive o)) (none is_meta_syscall t) = true /\
      match res with Ret _ => True | _ => False end
  end.
Proof.
  unfold post_dir. unfold_m. simpl. repeat step.
  all: try destruct (dry_run (sess_opts ss));
    try destruct (recursive (sess_opts ss)); try discriminate.
  all: simpl; repeat split; auto.
Qed.

Lemma fixup_from_spec (l : list flist) (i : nat) (s : locals) :
  match fixup_from e ss i l s with
  | (res, s', t) =>
      same_frame s s' /\ phase s' = phase s /\
      forallb fixup_event t = true /\
      implb (dry_run o || negb (recursive o)) (none is_meta_syscall t) = true /\
      match res with
      | Ret _ => count is_post_dir t = count_dirs l
      | GotoOut => True
      | AssertFail | Pending => False
      end
  end.
Proof.
  revert i s. induction l as [|f l IH]; intros i s.
  - simpl. unfold ret, same_frame. simpl.
    rewrite implb_true_r. repeat split.
  - simpl. unfold bind at 1.
    unfold count_dirs. simpl.
    destruct (S_ISDIR (mode (st f))) eqn:Hdir; simpl.
    + unfold_m.
      pose proof (post_dir_spec i (dfd s) f (nth i (newdir s) 0) s) as Hp.
      destruct (post_dir e ss i (dfd s) f (nth i (newdir s) 0) s)
        as [[res s1] t1].
      destruct Hp as (-> & Hev & Hc & Hm & Hres).
      destruct res as [z| | |]; try contradiction.
      destruct (z =? 0); simpl.
      * rewrite !app_nil_r. unfold same_frame. auto.
      * specialize (IH (S i) (set_idx (S i) s)).
        destruct (fixup_from e ss (S i) l (set_idx (S i) s))
          as [[res2 s2] t2].
        destruct IH as (Hf & Hph & Hev2 & Hm2 & Hres2).
        rewrite !app_nil_r. rewrite forallb_app, none_app, Hev, Hev2.
        assert (Hcount : match res2 with
                         | Ret _ => count is_post_dir (t1 ++ t2) =
                                    S (count_dirs l)
                         | GotoOut => True
                         | _ => False
                         end).
        { destruct res2; auto. rewrite count_app, Hc, Hres2. reflexivity. }
        destruct (dry_run o || negb (recursive o)); simpl in *;
          rewrite ?Hm, ?Hm2; auto.
    + unfold_m.
      specialize (IH (S i) (set_idx (S i) s)).
      destruct (fixup_from e ss (S i) l (set_idx (S i) s))
        as [[res2 s2] t2].
      simpl. exact IH.
Qed.

Lemma post_dir_marker (i : nat) (rootfd : Z) (f : flist) (nd : Z) (s : locals) :
  match post_dir e ss i rootfd f nd s with
  | (_, _, t) => List.filter is_post_dir t = [EvPostDir i]
  end.
Proof.
  unfold post_dir. unfold_m. simpl. repeat step; reflexivity.
Qed.

(** The fix-up loop enters [post_dir] for the directories in the order
    of the list. *)
Lemma fixup_from_order (l : list flist) (i : nat) (s : locals) :
  match fixup_from e ss i l s with
  | (Ret _, _, t) =>
      List.filter is_post_dir t = map EvPostDir (dir_indices i l)
  | _ => True
  end.
Proof.
  revert i s. induction l as [|f l IH]; intros i s; [reflexivity|].
  simpl. unfold bind at 1.
  destruct (S_ISDIR (mode (st f))) eqn:Hdir; simpl; unfold_m.
  - pose proof (post_dir_marker i (dfd s) f (nth i (newdir s) 0) s) as Hp.
    pose proof (post_dir_spec i (dfd s) f (nth i (newdir s) 0) s) as Hq.
    destruct (post_dir e ss i (dfd s) f (nth i (newdir s) 0) s)
      as [[res s1] t1].
    destruct Hq as (-> & _ & _ & _ & Hres).
    destruct res as [z| | |]; try contradiction.
    destruct (z =? 0); simpl; [exact I|].
    specialize (IH (S i) (set_idx (S i) s)).
    destruct (fixup_from e ss (S i) l (set_idx (S i) s)) as [[res2 s2] t2].
    destruct res2; try exact I.
    rewrite !app_nil_r, List.filter_app, Hp, IH. reflexivity.
  - specialize (IH (S i) (set_idx (S i) s)).
    destruct (fixup_from e ss (S i) l (set_idx (S i) s)) as [[res2 s2] t2].
    destruct res2; try exact I. exact IH.
Qed.

Lemma fixup_dirs_spec (s : locals) :
  match fixup_dirs e ss s with
  | (res, s', t) =>
      same_frame s s' /\ phase s' = phase s /\
      forallb fixup_event t = true /\
      implb (dry_run o || negb (recursive o)) (none is_meta_syscall t) = true /\
      match res with
      | Ret _ =>
          count is_post_dir t =
          if preserve_times o || preserve_perms o then count_dirs (fl s)
          else 0%nat
      | GotoOut => True
      | AssertFail | Pending => False
      end
  end.
Proof.
  unfold fixup_dirs.
  destruct (preserve_times (sess_opts ss) || preserve_perms (sess_opts ss)).
  - unfold_m. simpl.
    pose proof (fixup_from_spec (fl s) 0 (set_idx 0 s)) as H.
    destruct (fixup_from e ss 0 (fl s) (set_idx 0 s)) as [[res s1] t1].
    exact H.
  - unfold ret, same_frame. simpl. rewrite implb_true_r. repeat split.
Qed.

Lemma closing_spec (s : locals) :
  match (phase_handshake e fdin fdout >> read_stats e ss fdin >>
         goodbye e fdout) s with
  | (res, s', t) =>
      fl s' = fl s /\ dfl s' = dfl s /\ dfd s' = dfd s /\
      forallb finish_event t = true /\
      none is_meta_syscall t = true /\
      match res with
      | Ret _ =>
          rc s' = 1 /\
          t = handshake fdin fdout (server o) (phase s) ++
              [EvMsg LOG2 "receiver finished updating"]
      | GotoOut => rc s' = rc s
      | AssertFail | Pending => False
      end
  end.
Proof.
  unfold phase_handshake, read_stats, goodbye, handshake.
  unfold_m. simpl. repeat step.
  all: repeat split; auto.
  all: match goal with
       | H : (1 =? ?q)%positive = true |- context [Z.neg ?q] =>
           apply Pos.eqb_eq in H; subst q
       end; reflexivity.
Qed.

Lemma finish_spec (s : locals) :
  match finish e ss fdin fdout s with
  | (res, s', t) =>
      fl s' = fl s /\ dfl s' = dfl s /\ dfd s' = dfd s /\
      forallb finish_event t = true /\
      implb (dry_run o || negb (recursive o)) (none is_meta_syscall t) = true /\
      match res with
      | Ret _ =>
          rc s' = 1 /\
          exists tf,
            t = tf ++ handshake fdin fdout (server o) (phase s) ++
                [EvMsg LOG2 "receiver finished updating"] /\
            forallb fixup_event tf = true /\
            count is_post_dir tf =
            if preserve_times o || preserve_perms o then count_dirs (fl s)
            else 0%nat
      | GotoOut => rc s' = rc s
      | AssertFail | Pending => False
      end
  end.
Proof.
  unfold finish. unfold bind at 1.
  pose proof (fixup_dirs_spec s) as Hf.
  destruct (fixup_dirs e ss s) as [[res1 s1] t1].
  destruct Hf as ((Hfl & Hdfl & Hdfd & Hrc) & Hph & Hev & Hm & Hres).
  assert (Hfin : forallb finish_event t1 = true).
  { rewrite forallb_forall in *. intros ev Hin. unfold finish_event.
    now rewrite (Hev ev Hin). }
  destruct res1; try contradiction.
  - pose proof (closing_spec s1) as Hc.
    destruct ((phase_handshake e fdin fdout >> read_stats e ss fdin >>
               goodbye e fdout) s1) as [[res2 s2] t2].
    destruct Hc as (Hfl2 & Hdfl2 & Hdfd2 & Hev2 & Hm2 & Hres2).
    rewrite forallb_app, none_app, Hfin, Hev2, Hm2, !andb_true_r.
    split; [congruence|]. split; [congruence|]. split; [congruence|].
    split; [reflexivity|]. split; [assumption|].
    destruct res2; try contradiction.
    + destruct Hres2 as [Hrc2 ->]. split; [assumption|].
      exists t1. rewrite Hph. auto.
    + congruence.
  - auto 10.
Qed.
End StageFacts.

(** Turn the recorded outcomes of the tests into propositions. *)
Ltac decode_tests :=
  unfold flsz in *;
  repeat match goal with
  | H : Z.eqb _ _ = true |- _ => apply Z.eqb_eq in H
  | H : Z.eqb _ _ = false |- _ => apply Z.eqb_neq in H
  | H : Z.ltb _ _ = true |- _ => apply Z.ltb_lt in H
  | H : Z.ltb _ _ = false |- _ => apply Z.ltb_ge in H
  | H : Nat.eqb _ _ = true |- _ => apply Nat.eqb_eq in H
  | H : Nat.eqb _ _ = false |- _ => apply Nat.eqb_neq in H
  | H : length _ = 0%nat |- _ => apply length_zero_iff_nil in H
  | H : ?a = ?b -> _, H' : ?a = ?b |- _ => specialize (H H')
  | H : _ /\ _ |- _ => destruct H
  | H : _ \/ _ |- _ => destruct H
  | H : Some _ = Some _ |- _ => injection H as H
  | H1 : ?x = Some _, H2 : ?x = Some _ |- _ => rewrite H1 in H2
  | H1 : ?x = Some _, H2 : ?x = None |- _ => rewrite H1 in H2; discriminate
  end; subst.

(** No event of kind [p] in a trace whose events are all of a class that
    excludes [p]. *)
Ltac by_class H lem :=
  eapply none_weaken; [|exact H];
  let ev := fresh "ev" in let Hev := fresh "Hev" in
  intros ev Hev; apply lem in Hev; tauto.

(** ** What a whole call does *)

Section SessionFacts.
Variable e : env.
Variable ss : sess.
Variables fdin fdout : Z.
Variable root : string.

Local Abbreviation o := (sess_opts ss).
Local Abbreviation session := (rsync_receiver e ss fdin fdout root).

Lemma receiver_run_shape :
  match session with (out, t) => run_shape e ss fdin fdout root out t end.
Proof.
  unfold rsync_receiver, body. unfold bind at 1.
  pose proof (setup_spec e ss fdin fdout root) as Hs.
  destruct (setup e ss fdin fdout root init) as [[r1 s1] t1] eqn:Es.
  destruct Hs as (_ & _ & _ & _ & _ & _ & _ & Hph & Hr1).
  destruct r1 as [[]| | |]; try contradiction.
  - unfold bind at 1.
    pose proof (transfer_loop_spec ss fdin (iters e) s1) as Hl.
    destruct (transfer_loop ss fdin (iters e) s1) as [[r2 s2] t2] eqn:El.
    destruct Hl as (_ & _ & Hr2).
    destruct r2 as [[]| | |]; try contradiction.
    + pose proof (finish_spec e ss fdin fdout s2) as Hf.
      destruct (finish e ss fdin fdout s2) as [[r3 s3] t3] eqn:Ef.
      destruct Hf as (_ & _ & _ & _ & _ & Hr3).
      destruct r3 as [[]| | |]; try contradiction; simpl;
        rewrite <- !app_assoc.
      * eapply run_done; eassumption.
      * eapply run_finish_exit; eassumption.
    + simpl. rewrite <- app_assoc. eapply run_loop_exit; eassumption.
    + simpl. eapply run_loop_wait; eassumption.
  - simpl. now apply run_setup_exit.
Qed.

Lemma class_setup ev :
  setup_event ev = true ->
  is_post_dir ev = false /\ is_meta_syscall ev = false /\
  is_stats ev = false /\ is_transfer ev = false.
Proof. destruct ev; simpl; intros; try discriminate; auto. Qed.

Lemma class_late ev :
  late_event ev = true ->
  is_gen_local ev = false /\ is_unveil ev = false /\
  is_flist_del ev = false /\ is_flist_recv ev = false /\
  is_preamble ev = false /\ is_mkpath ev = false /\ is_open ev = false /\
  is_umask ev = false.
Proof.
  destruct ev; simpl; intros H; try discriminate; repeat split.
  unfold late_event, finish_event in H. simpl in H.
  rewrite !orb_false_r in H. apply Z.eqb_eq in H. subst. reflexivity.
Qed.

Lemma class_cleanup ev :
  cleanup_event ev = true ->
  late_event ev = true /\ is_sentinel ev = false /\ is_stats ev = false /\
  is_post_dir ev = false /\ is_meta_syscall ev = false.
Proof. destruct ev; simpl; intros; try discriminate; auto. Qed.

Lemma class_loop ev :
  loop_event ev = true ->
  late_event ev = true /\ is_sentinel ev = false /\ is_stats ev = false /\
  is_post_dir ev = false /\ is_meta_syscall ev = false.
Proof. destruct ev; simpl; intros; try discriminate; auto. Qed.

Lemma class_fixup ev :
  fixup_event ev = true ->
  is_sentinel ev = false /\ is_stats ev = false.
Proof. destruct ev; simpl; intros; try discriminate; auto. Qed.

Lemma class_finish ev : finish_event ev = true -> late_event ev = true.
Proof.
  unfold late_event. intros ->. now rewrite orb_true_r.
Qed.

Lemma cleanup_events s : forallb cleanup_event (cleanup s) = true.
Proof. unfold cleanup. destruct (-1 =? dfd s); reflexivity. Qed.

Lemma forallb_weaken (p q : event -> bool) (t : trace) :
  (forall ev, p ev = true -> q ev = true) ->
  forallb p t = true -> forallb q t = true.
Proof.
  intros Hpq Hp. rewrite forallb_forall in *. auto.
Qed.


Lemma late_of_loop t : forallb loop_event t = true -> forallb late_event t = true.
Proof. apply forallb_weaken. intros ev H. now apply class_loop in H. Qed.

Lemma late_of_finish t :
  forallb finish_event t = true -> forallb late_event t = true.
Proof. apply forallb_weaken, class_finish. Qed.

Lemma late_of_cleanup s : forallb late_event (cleanup s) = true.
Proof.
  eapply forallb_weaken; [|apply cleanup_events].
  intros ev H. now apply class_cleanup in H.
Qed.

(** Everything after the set-up is of the late kind, and directory
    metadata is only touched in a recursive run that is not a dry run. *)
Lemma receiver_trace_tail :
  match session with
  | (_, t) =>
      exists tail,
        t = snd (setup e ss fdin fdout root init) ++ tail /\
        forallb late_event tail = true /\
        implb (dry_run o || negb (recursive o)) (none is_meta_syscall t)
        = true
  end.
Proof.
  pose proof receiver_run_shape as Hrun.
  pose proof (setup_spec e ss fdin fdout root) as Hs.
  destruct session as [out t].
  destruct Hrun as [s1 t1 Es|s1 t1 s2 t2 Es El|s1 t1 s2 t2 Es El
                   |s1 t1 s2 t2 s3 t3 Es El Ef|s1 t1 s2 t2 s3 t3 Es El Ef];
    rewrite Es in *; simpl; destruct Hs as (Hev1 & _);
    assert (Hm1 : none is_meta_syscall t1 = true) by (by_class Hev1 class_setup).
  all: try (pose proof (transfer_loop_spec ss fdin (iters e) s1) as Hl;
            rewrite El in Hl; destruct Hl as (Hev2 & _);
            assert (Hm2 : none is_meta_syscall t2 = true)
              by (by_class Hev2 class_loop);
            apply late_of_loop in Hev2).
  all: try (pose proof (finish_spec e ss fdin fdout s2) as Hf;
            rewrite Ef in Hf; destruct Hf as (_ & _ & _ & Hev3 & Hm3 & _);
            apply late_of_finish in Hev3).
  all: match goal with
       | |- context [cleanup ?s] =>
           pose proof (late_of_cleanup s) as Hevc;
           assert (Hmc : none is_meta_syscall (cleanup s) = true)
             by (by_class (cleanup_events s) class_cleanup)
       | _ => idtac
       end.
  all: eexists; split; [reflexivity|].
  all: rewrite ?forallb_app, ?none_app, ?Hm1, ?Hm2, ?Hmc, ?Hev2, ?Hev3, ?Hevc.
  all: simpl; rewrite ?andb_true_r, ?implb_true_r; auto.
Qed.

Lemma setup_preamble_sent :
  match setup e ss fdin fdout root init with
  | (_, _, t) =>
      server o = false -> pledge_rc e <> -1 ->
      t !! 1%nat = Some (EvWriteInt fdout 0)
  end.
Proof.
  unfold setup, preamble, receive_list, empty_list_exit,
    prepare_destination, enumerate_local, sandbox, delete_extraneous,
    allocate_newdir, init_poll.
  unfold_m. unfold flsz. simpl.
  repeat step; intros Hsrv Hpl; try reflexivity; try discriminate.
  all: apply Z.eqb_eq in Heqb; contradiction.
Qed.

Lemma setup_reaches_sandbox :
  match setup e ss fdin fdout root init with
  | (_, _, t) =>
      reaches_sandbox e o -> EvUnveil (Some root) (Some "rwc"%string) ∈ t
  end.
Proof.
  unfold setup, preamble, receive_list, empty_list_exit,
    prepare_destination, enumerate_local, sandbox, delete_extraneous,
    allocate_newdir, init_poll.
  unfold_m. unfold flsz. simpl.
  repeat step.
  all: intros (Hpl & Hpre & (l' & Hl & Hne) & Hst & Hdest & Hgen).
  all: try solve [exfalso; decode_tests; congruence || lia].
  all: apply list_elem_of_In; simpl; tauto.
Qed.
End SessionFacts.


(** ** The deleter pass and the sandbox *)

(** The part of a trace before the enumeration. *)
Ltac upto_gen l :=
  lazymatch l with
  | EvFlistGenLocal _ :: _ => constr:(@nil event)
  | ?x :: ?l' => let p := upto_gen l' in constr:(x :: p)
  end.

(** Split a trace at the enumeration to show one of the two shapes
    above. *)
Ltac split_at_gen :=
  lazymatch goal with
  | |- exists pre post, ?t = _ /\ _ =>
      let p := upto_gen t in exists p; eexists; split; [reflexivity|]
  end.

Section SandboxFacts.
Variable e : env.
Variable ss : sess.
Variables fdin fdout : Z.
Variable root : string.
Local Abbreviation o := (sess_opts ss).

(** The deleter and the sandbox in the code before the loop. *)
Lemma setup_deleter :
  match setup e ss fdin fdout root init with
  | (res, s, t) =>
      (forall ev, ev ∈ t -> is_flist_del ev = true ->
       deleter_around_sandbox root ev t /\
       unveil_rc e <> -1 /\ unveil_lock_rc e <> -1 /\
       exists d l,
         gen_local_res e = Some (Some d) /\ flist_recv_res e = Some l /\
         ev = EvFlistDel (if dry_run o then -1 else open_rc e)
                         (length d) (length l)) /\
      (del o = true -> recursive o = true -> reaches_sandbox e o ->
       enumeration_then_unveil root t /\
       (unveil_rc e <> -1 -> unveil_lock_rc e <> -1 ->
        forall d, gen_local_res e = Some (Some d) ->
        exists ev, ev ∈ t /\ is_flist_del ev = true)) /\
      (reaches_sandbox e o -> List.filter is_unveil t = sandbox_attempt e root)
  end.
Proof.
  unfold setup, preamble, receive_list, empty_list_exit,
    prepare_destination, enumerate_local, sandbox, delete_extraneous,
    allocate_newdir, init_poll.
  unfold_m. unfold flsz. simpl. repeat step.
  all: split; [|split].
  all: try (intros ev Hin Hev; apply list_elem_of_In in Hin; simpl in Hin;
            repeat (destruct Hin as [<-|Hin]; [try discriminate Hev|]);
            try contradiction).
  all: try (intros Hdel Hrec (Hpl & Hpre & (l' & Hl & Hne) & Hst & Hdest & Hgen)).
  all: try (intros (Hpl & Hpre & (l' & Hl & Hne) & Hst & Hdest & Hgen)).
  all: try solve [exfalso; decode_tests; congruence || lia].
  all: try (unfold sandbox_attempt;
            repeat match goal with
                   | H : (unveil_rc e =? -1) = _ |- _ => rewrite H
                   end; reflexivity).
  all: try (split;
            [ unfold deleter_around_sandbox; split_at_gen; split; reflexivity
            | decode_tests; repeat split; try assumption; eauto ]).
  all: try (split;
            [ unfold enumeration_then_unveil; split_at_gen; reflexivity
            | intros Hu Hk d Hd; try discriminate Hd;
              first
                [ exfalso; decode_tests; contradiction || congruence
                | match goal with
                  | |- context [EvFlistDel ?a ?b ?c] => exists (EvFlistDel a b c)
                  end;
                  split; [apply list_elem_of_In; simpl; tauto | reflexivity] ] ]).
Qed.
End SandboxFacts.

Lemma deleter_around_sandbox_app (root : string) (ev : event) (t tail : trace) :
  deleter_around_sandbox root ev t ->
  none is_gen_local tail && none is_unveil tail && none is_flist_del tail = true ->
  deleter_around_sandbox root ev (t ++ tail).
Proof.
  intros (pre & post & -> & Hpre & Hpost) Htail.
  exists pre, (post ++ tail). split; [now rewrite <- !app_assoc|].
  split; [assumption|].
  rewrite !none_app.
  repeat (apply andb_true_iff in Hpost as [Hpost ?]).
  repeat (apply andb_true_iff in Htail as [Htail ?]).
  repeat (apply andb_true_iff; split); assumption.
Qed.

Lemma enumeration_then_unveil_app (root : string) (t tail : trace) :
  enumeration_then_unveil root t -> enumeration_then_unveil root (t ++ tail).
Proof.
  intros (pre & post & -> & Hpre).
  exists pre, (post ++ tail). split; [now rewrite <- !app_assoc|assumption].
Qed.

Lemma late_tail_quiet (tail : trace) :
  forallb late_event tail = true ->
  none is_gen_local tail = true /\ none is_unveil tail = true /\
  none is_flist_del tail = true.
Proof.
  intros Hlate. repeat split; by_class Hlate class_late.
Qed.

(** ** The claims *)

Import Sample.

(** *** C1: the deleter and the sandbox *)

(** C1, as stated, fails: with [-r --delete] the removal pass
    ([flist_del]) stands at position 14 of the trace, after both [unveil]
    calls (positions 12 and 13). *)
Lemma deleter_after_sandbox_counterexample :
  del mirror = true /\ recursive mirror = true /\
  ~ deleter_before_sandbox (snd (run (cooperative [sub; sub_a]) mirror)).
Proof.
  split; [reflexivity|]. split; [reflexivity|].
  intros [_ Hdel].
  specialize (Hdel 14%nat 12%nat _ _ eq_refl eq_refl eq_refl eq_refl). lia.
Qed.

(** C1, amended: in every session with deletion enabled, the enumeration
    of the local tree ([flist_gen_local]) comes before every [unveil]
    call and every [unveil] call comes before the removal pass
    ([flist_del]).  The removal runs only inside the sandbox: whenever it
    is called, it is called directly after the unveil of the root and the
    lock-down, which directly follow the enumeration and both succeeded,
    and it works on the enumerated list and the received file list.  And
    the pass does run: once the steps before the sandbox have succeeded
    the enumeration is the call directly before the unveil of the root,
    and the removal is called when the enumeration stored a list and both
    [unveil] calls succeeded. *)
Theorem enumeration_sandbox_removal_order
    (e : env) (ss : sess) (fdin fdout : Z) (root : string) :
  del (sess_opts ss) = true -> recursive (sess_opts ss) = true ->
  precedes is_gen_local is_unveil (snd (rsync_receiver e ss fdin fdout root)) /\
  precedes is_unveil is_flist_del (snd (rsync_receiver e ss fdin fdout root)) /\
  (forall ev,
     ev ∈ snd (rsync_receiver e ss fdin fdout root) -> is_flist_del ev = true ->
     deleter_around_sandbox root ev (snd (rsync_receiver e ss fdin fdout root)) /\
     unveil_rc e <> -1 /\ unveil_lock_rc e <> -1 /\
     exists d l,
       gen_local_res e = Some (Some d) /\ flist_recv_res e = Some l /\
       ev = EvFlistDel (if dry_run (sess_opts ss) then -1 else open_rc e)
                       (length d) (length l)) /\
  (reaches_sandbox e (sess_opts ss) ->
   enumeration_then_unveil root (snd (rsync_receiver e ss fdin fdout root)) /\
   (unveil_rc e <> -1 -> unveil_lock_rc e <> -1 ->
    forall d, gen_local_res e = Some (Some d) ->
    exists ev,
      ev ∈ snd (rsync_receiver e ss fdin fdout root) /\ is_flist_del ev = true)).
Proof.
  intros Hdel Hrec.
  pose proof (receiver_trace_tail e ss fdin fdout root) as Ht.
  pose proof (setup_spec e ss fdin fdout root) as Hs.
  pose proof (setup_deleter e ss fdin fdout root) as Hd.
  destruct (rsync_receiver e ss fdin fdout root) as [out t].
  destruct Ht as (tail & -> & Hlate & _).
  destruct (setup e ss fdin fdout root init) as [[r1 s1] t1].
  destruct Hs as (_ & Hgu & Hud & _). destruct Hd as (Hrem & Henum & _).
  destruct (late_tail_quiet _ Hlate) as (Hg & Hu & Hfd). simpl.
  split; [now apply precedesb_sound, precedesb_app|].
  split; [now apply precedesb_sound, precedesb_app|].
  split.
  - intros ev Hin Hev.
    apply elem_of_app in Hin as [Hin|Hin].
    + destruct (Hrem ev Hin Hev) as (Hshape & Hrest).
      split; [|exact Hrest].
      apply deleter_around_sandbox_app; [assumption|].
      now rewrite Hg, Hu, Hfd.
    + rewrite none_spec in Hfd. rewrite (Hfd ev Hin) in Hev. discriminate.
  - intros Hreach. destruct (Henum Hdel Hrec Hreach) as (Hshape & Hex).
    split; [now apply enumeration_then_unveil_app|].
    intros H1 H2 d Hgen. destruct (Hex H1 H2 d Hgen) as (ev & Hin & Hev).
    exists ev. split; [|assumption]. apply elem_of_app. now left.
Qed.

Lemma enumeration_sandbox_removal_order_witness :
  deleter_around_sandbox "dst" (EvFlistDel 3 1 2)
    (snd (run (cooperative [sub; sub_a]) mirror)) /\
  enumeration_then_unveil "dst" (snd (run (cooperative [sub; sub_a]) mirror)).
Proof.
  pose proof (enumeration_sandbox_removal_order
                (cooperative [sub; sub_a]) (client mirror) 0 1 "dst"
                eq_refl eq_refl) as (_ & _ & Hrem & Henum).
  split.
  - apply Hrem; [|reflexivity].
    apply list_elem_of_In. vm_compute. tauto.
  - apply Henum. unfold reaches_sandbox. simpl.
    repeat split; try discriminate; auto.
    exists [sub; sub_a]. split; [reflexivity|]. left. discriminate.
Defined.

(** *** C2: the sandbox in a dry run *)

(** C2, as stated, fails: the dry run of the sample session calls
    [unveil]. *)
Lemma dry_run_sandbox_counterexample :
  ~ no_sandbox_in_dry_run mirror_dry
      (snd (run (cooperative [sub; sub_a]) mirror_dry)).
Proof.
  intros H. specialize (H eq_refl). vm_compute in H. discriminate.
Qed.

(** C2, amended: a dry run creates no destination ([mkpath]), opens no
    directory handle and applies no directory metadata; but the sandbox is
    attempted in a dry run exactly as in any other session: once the steps
    before it have succeeded, the [unveil] calls of the session are the
    unveil of the destination root followed, unless that call returned -1,
    by the lock-down, and no other. *)
Theorem dry_run_keeps_sandbox
    (e : env) (ss : sess) (fdin fdout : Z) (root : string) :
  (dry_run (sess_opts ss) = true ->
   none is_mkpath (snd (rsync_receiver e ss fdin fdout root)) = true /\
   none is_open (snd (rsync_receiver e ss fdin fdout root)) = true /\
   none is_meta_syscall (snd (rsync_receiver e ss fdin fdout root)) = true) /\
  (reaches_sandbox e (sess_opts ss) ->
   List.filter is_unveil (snd (rsync_receiver e ss fdin fdout root))
   = sandbox_attempt e root).
Proof.
  pose proof (receiver_trace_tail e ss fdin fdout root) as Ht.
  pose proof (setup_spec e ss fdin fdout root) as Hs.
  pose proof (setup_deleter e ss fdin fdout root) as Hr.
  destruct (rsync_receiver e ss fdin fdout root) as [out t].
  destruct Ht as (tail & Heq & Hlate & Hmeta).
  destruct (setup e ss fdin fdout root init) as [[r1 s1] t1].
  destruct Hs as (_ & _ & _ & _ & _ & _ & Hdry & _).
  destruct Hr as (_ & _ & Hun). simpl in *.
  split.
  - intros Hd. rewrite Hd in *. simpl in *.
    apply andb_true_iff in Hdry as [Hmk Hop].
    subst t. rewrite !none_app, Hmk, Hop. simpl.
    repeat split; try assumption.
    + by_class Hlate class_late.
    + by_class Hlate class_late.
    + now rewrite <- none_app.
  - intros Hreach. subst t.
    destruct (late_tail_quiet _ Hlate) as (_ & Hu & _).
    rewrite List.filter_app, (filter_none _ _ Hu), app_nil_r. auto.
Qed.

Lemma dry_run_keeps_sandbox_witness :
  (none is_mkpath (snd (run (cooperative [sub; sub_a]) mirror_dry)) = true /\
   none is_open (snd (run (cooperative [sub; sub_a]) mirror_dry)) = true /\
   none is_meta_syscall (snd (run (cooperative [sub; sub_a]) mirror_dry))
   = true) /\
  List.filter is_unveil (snd (run (cooperative [sub; sub_a]) mirror_dry))
  = [EvUnveil (Some "dst"%string) (Some "rwc"%string); EvUnveil None None].
Proof.
  pose proof (dry_run_keeps_sandbox
                (cooperative [sub; sub_a]) (client mirror_dry) 0 1 "dst")
    as [Hdry Hsand].
  split.
  - apply Hdry. reflexivity.
  - apply Hsand. unfold reaches_sandbox. simpl.
    repeat split; try discriminate; auto.
    exists [sub; sub_a]. split; [reflexivity|]. left. discriminate.
Defined.

(** *** C3: the closing exchange *)




(** *** C4: the order of the directory fix-up *)

(** C4: whenever the fix-up loop runs to its end, it has entered
    [post_dir] for the directories by ascending index of the file list.
    In the sample the list holds the directory "sub" and, after it, its
    child directory "sub/deep"; with [-r -p] the session succeeds and
    [post_dir] changes the mode of "sub" before it is entered for
    "sub/deep": the parent comes first. *)
Theorem fixup_parent_before_child :
  (forall (e : env) (ss : sess) (l : list flist) (s : locals),
     match fixup_from e ss 0 l s with
     | (Ret _, _, t) =>
         List.filter is_post_dir t = map EvPostDir (dir_indices 0 l)
     | _ => True
     end) /\
  fst (run (cooperative [sub; sub_deep]) perms) = Returned 1 /\
  List.filter (fun ev => is_post_dir ev || is_meta_syscall ev)
    (snd (run (cooperative [sub; sub_deep]) perms)) =
  [EvPostDir 0; EvFchmodat 3 "sub" dir_mode;
   EvPostDir 1; EvFchmodat 3 "sub/deep" dir_mode].
Proof.
  split; [|split; reflexivity].
  intros e ss l s. apply fixup_from_order.
Qed.

(** *** C5: the preamble *)

(** C5, as stated, fails: the sample session is the top-level driver and
    writes the zero preamble. *)
Lemma preamble_top_level_counterexample :
  ~ preamble_only_helper mirror (snd (run (cooperative [sub; sub_a]) mirror)).
Proof.
  intros [H _].
  assert (Htop : top_level mirror = false); [|discriminate].
  apply H. exists (EvWriteInt 1 0). split; [|reflexivity].
  apply list_elem_of_lookup. exists 1%nat. reflexivity.
Qed.

(** C5, amended: the zero preamble is written only when the process is
    the top-level driver (not the server); every such write comes before
    the reception of the file list; and a top-level driver whose pledge
    succeeds does write it, as its first call after the pledge. *)
Theorem preamble_only_top_level
    (e : env) (ss : sess) (fdin fdout : Z) (root : string) :
  ((exists ev, ev ∈ snd (rsync_receiver e ss fdin fdout root) /\
               is_preamble ev = true) ->
   top_level (sess_opts ss) = true) /\
  precedes is_preamble is_flist_recv
    (snd (rsync_receiver e ss fdin fdout root)) /\
  (top_level (sess_opts ss) = true -> pledge_rc e <> -1 ->
   snd (rsync_receiver e ss fdin fdout root) !! 1%nat
   = Some (EvWriteInt fdout 0)).
Proof.
  pose proof (receiver_trace_tail e ss fdin fdout root) as Ht.
  pose proof (setup_spec e ss fdin fdout root) as Hs.
  pose proof (setup_preamble_sent e ss fdin fdout root) as Hp.
  destruct (rsync_receiver e ss fdin fdout root) as [out t].
  destruct Ht as (tail & -> & Hlate & _).
  destruct (setup e ss fdin fdout root init) as [[r1 s1] t1].
  destruct Hs as (_ & _ & _ & Hpf & _ & Hsrv & _). simpl.
  assert (Htail : none is_preamble tail = true) by (by_class Hlate class_late).
  unfold top_level. repeat split.
  - intros (ev & Hin & Hev).
    destruct (server (sess_opts ss)); [|reflexivity]. simpl in Hsrv.
    apply elem_of_app in Hin as [Hin|Hin].
    + rewrite none_spec in Hsrv. rewrite (Hsrv ev Hin) in Hev. discriminate.
    + rewrite none_spec in Htail. rewrite (Htail ev Hin) in Hev. discriminate.
  - now apply precedesb_sound, precedesb_app.
  - intros Htop Hpl. apply lookup_app_l_Some, Hp; [|assumption].
    now apply negb_true_iff.
Qed.

Lemma preamble_only_top_level_witness :
  top_level mirror = true /\
  snd (run (cooperative [sub; sub_a]) mirror) !! 1%nat = Some (EvWriteInt 1 0).
Proof.
  split; [reflexivity|].
  apply (preamble_only_top_level
           (cooperative [sub; sub_a]) (client mirror) 0 1 "dst").
  - reflexivity.
  - simpl. lia.
Defined.

(** *** C6: the empty file list *)

(** C6: when the list has been received (the pledge and the preamble
    succeeded, the status is 0), is empty, and the process is the
    top-level driver, the call returns 1 after a warning; its whole trace
    is the five calls up to the warning and the releases at [out]: no
    destination is created or opened, nothing is unveiled, the loop is not
    entered and no sentinel is written. *)
Theorem empty_list_top_level_success
    (e : env) (ss : sess) (fdin fdout : Z) (root : string) :
  top_level (sess_opts ss) = true ->
  pledge_rc e <> -1 -> preamble_ok e = true ->
  flist_recv_res e = Some [] -> status_res e = Some 0 ->
  rsync_receiver e ss fdin fdout root =
  (Returned 1,
   [EvPledge "unveil rpath cpath wpath stdio fattr"; EvWriteInt fdout 0;
    EvFlistRecv fdin; EvReadInt fdin (Some 0);
    EvMsg WARNX "receiver has empty file list: exiting";
    EvFlistFree 0; EvFlistFree 0; EvFree]) /\
  none is_mkpath (snd (rsync_receiver e ss fdin fdout root)) = true /\
  none is_open (snd (rsync_receiver e ss fdin fdout root)) = true /\
  none is_unveil (snd (rsync_receiver e ss fdin fdout root)) = true /\
  none is_transfer (snd (rsync_receiver e ss fdin fdout root)) = true /\
  none is_sentinel (snd (rsync_receiver e ss fdin fdout root)) = true.
Proof.
  intros Htop Hpl Hpre Hfl Hst.
  apply negb_true_iff in Htop. apply Z.eqb_neq in Hpl.
  assert (Hrun : rsync_receiver e ss fdin fdout root =
    (Returned 1,
     [EvPledge "unveil rpath cpath wpath stdio fattr"; EvWriteInt fdout 0;
      EvFlistRecv fdin; EvReadInt fdin (Some 0);
      EvMsg WARNX "receiver has empty file list: exiting";
      EvFlistFree 0; EvFlistFree 0; EvFree])).
  { unfold rsync_receiver, body, setup, preamble, receive_list,
      empty_list_exit.
    unfold_m. unfold flsz. simpl.
    rewrite Hpl, Htop, Hpre, Hfl, Hst. reflexivity. }
  rewrite Hrun. repeat split.
Qed.

Lemma empty_list_top_level_success_witness :
  run (cooperative []) mirror =
  (Returned 1,
   [EvPledge "unveil rpath cpath wpath stdio fattr"; EvWriteInt 1 0;
    EvFlistRecv 0; EvReadInt 0 (Some 0);
    EvMsg WARNX "receiver has empty file list: exiting";
    EvFlistFree 0; EvFlistFree 0; EvFree]).
Proof.
  apply (empty_list_top_level_success (cooperative []) (client mirror)
           0 1 "dst"); try reflexivity.
  simpl. lia.
Defined.

(** *** C7: a non-zero list status *)

(** C7: when the status integer that follows the file list is not zero,
    the call returns 0 and the session holds no destination creation or
    open, no umask reset, no removal, no transfer and no directory
    metadata call; when the list was received, the trace ends with the
    message about the status and the releases at [out]. *)
Theorem bad_list_status_fails_early
    (e : env) (ss : sess) (fdin fdout : Z) (root : string) (v : Z) :
  status_res e = Some v -> v <> 0 ->
  fst (rsync_receiver e ss fdin fdout root) = Returned 0 /\
  none is_mkpath (snd (rsync_receiver e ss fdin fdout root)) = true /\
  none is_umask (snd (rsync_receiver e ss fdin fdout root)) = true /\
  none is_open (snd (rsync_receiver e ss fdin fdout root)) = true /\
  none is_flist_del (snd (rsync_receiver e ss fdin fdout root)) = true /\
  none is_transfer (snd (rsync_receiver e ss fdin fdout root)) = true /\
  none is_meta_syscall (snd (rsync_receiver e ss fdin fdout root)) = true /\
  (forall l,
     pledge_rc e <> -1 ->
     server (sess_opts ss) = true \/ preamble_ok e = true ->
     flist_recv_res e = Some l ->
     snd (rsync_receiver e ss fdin fdout root) =
     [EvPledge "unveil rpath cpath wpath stdio fattr"] ++
     (if server (sess_opts ss) then [] else [EvWriteInt fdout 0]) ++
     [EvFlistRecv fdin; EvReadInt fdin (Some v);
      EvMsg ERRX1 "io_error is non-zero";
      EvFlistFree (length l); EvFlistFree 0; EvFree]).
Proof.
  intros Hst Hv. apply Z.eqb_neq in Hv.
  unfold rsync_receiver, body, setup, preamble, receive_list.
  unfold_m. unfold flsz. simpl. rewrite Hst. simpl. rewrite Hv. simpl.
  destruct (pledge_rc e =? -1) eqn:Hpl.
  { repeat split. intros l Hp. decode_tests. contradiction. }
  destruct (server (sess_opts ss)); simpl.
  - destruct (flist_recv_res e); repeat split; intros l' _ _ Hl;
      first [discriminate | injection Hl as <-; reflexivity].
  - destruct (preamble_ok e); simpl.
    + destruct (flist_recv_res e); repeat split; intros l' _ _ Hl;
        first [discriminate | injection Hl as <-; reflexivity].
    + repeat split. intros l' _ [Hs|Hs] _; discriminate.
Qed.

Lemma bad_list_status_fails_early_witness :
  fst (run (bad_status [sub; sub_a] 23) mirror) = Returned 0 /\
  snd (run (bad_status [sub; sub_a] 23) mirror) =
  [EvPledge "unveil rpath cpath wpath stdio fattr"; EvWriteInt 1 0;
   EvFlistRecv 0; EvReadInt 0 (Some 23);
   EvMsg ERRX1 "io_error is non-zero";
   EvFlistFree 2; EvFlistFree 0; EvFree].
Proof.
  pose proof (bad_list_status_fails_early (bad_status [sub; sub_a] 23)
                (client mirror) 0 1 "dst" 23 eq_refl) as H.
  destruct H as (Hrc & _ & _ & _ & _ & _ & _ & Htr); [lia|].
  split; [exact Hrc|].
  apply (Htr [sub; sub_a]).
  - simpl. lia.
  - right. reflexivity.
  - reflexivity.
Defined.

(** *** C8: the wait policy *)




(** *** C9: the number of directory fix-ups *)

(** C9, as stated, fails: with [-r] alone the sample session succeeds,
    its list holds one directory, and [post_dir] is never entered nor is
    any directory metadata applied; the count is 0, not 1, whichever of
    the two is taken as an attempt. *)
Lemma no_fixup_counterexample :
  fst (run (cooperative [sub; sub_a]) plain) = Returned 1 /\
  ~ fixup_attempts_match is_post_dir plain [sub; sub_a]
      (snd (run (cooperative [sub; sub_a]) plain)) /\
  ~ fixup_attempts_match is_meta_syscall plain [sub; sub_a]
      (snd (run (cooperative [sub; sub_a]) plain)).
Proof.
  split; [reflexivity|].
  split; intros [Hcount _]; vm_compute in Hcount; discriminate.
Qed.

(** C9, amended: in every session no directory metadata is applied
    ([utimensat], [fchmodat]) when the run is a dry run or not recursive;
    in every session that returns success, [post_dir] is entered once per
    directory of the file list when the preservation of times or of
    permissions is requested, and never otherwise. *)
Theorem fixup_count
    (e : env) (ss : sess) (fdin fdout : Z) (root : string) :
  (dry_run (sess_opts ss) = true \/ recursive (sess_opts ss) = false ->
   none is_meta_syscall (snd (rsync_receiver e ss fdin fdout root)) = true) /\
  (forall l,
     fst (rsync_receiver e ss fdin fdout root) = Returned 1 ->
     flist_recv_res e = Some l ->
     count is_post_dir (snd (rsync_receiver e ss fdin fdout root)) =
     if preserve_times (sess_opts ss) || preserve_perms (sess_opts ss)
     then count_dirs l else 0%nat).
Proof.
  split.
  - intros Hmode.
    pose proof (receiver_trace_tail e ss fdin fdout root) as Ht.
    destruct (rsync_receiver e ss fdin fdout root) as [out t].
    destruct Ht as (tail & _ & _ & Hmeta). simpl.
    destruct Hmode as [Hm | Hm]; rewrite Hm in Hmeta; simpl in Hmeta;
      [assumption|].
    now rewrite orb_true_r in Hmeta.
  - intros l Hout Hl.
    pose proof (receiver_run_shape e ss fdin fdout root) as Hrun.
    pose proof (setup_spec e ss fdin fdout root) as Hs.
    destruct (rsync_receiver e ss fdin fdout root) as [out t].
    simpl in *. subst out.
    inversion Hrun as [s1 t1 Es Hrc|s1 t1 s2 t2 Es El Hrc|
                       |s1 t1 s2 t2 s3 t3 Es El Ef Hrc
                       |s1 t1 s2 t2 s3 t3 Es El Ef Hrc]; subst t;
      rewrite Es in Hs;
      destruct Hs as (Hev1 & _ & _ & _ & _ & _ & _ & Hph1 & Hr1);
      assert (Hp1 : count is_post_dir t1 = 0%nat)
        by (apply count_none; by_class Hev1 class_setup);
      assert (Hpc : forall s, count is_post_dir (cleanup s) = 0%nat)
        by (intros s; apply count_none;
            by_class (cleanup_events s) class_cleanup).
    + destruct Hr1 as [H0|(_ & Hfl & Hlen & Hsrv)]; [lia|].
      rewrite count_app, Hp1, Hpc. decode_tests. rewrite Hlen.
      now destruct (_ || _).
    + exfalso. pose proof (transfer_loop_spec ss fdin (iters e) s1) as Hl2.
      rewrite El in Hl2. destruct Hl2 as (_ & (_ & _ & _ & Hrc2) & _).
      destruct Hr1 as (Hrc1 & _). lia.
    + exfalso. pose proof (transfer_loop_spec ss fdin (iters e) s1) as Hl2.
      rewrite El in Hl2. destruct Hl2 as (_ & (_ & _ & _ & Hrc2) & _).
      pose proof (finish_spec e ss fdin fdout s2) as Hf.
      rewrite Ef in Hf. destruct Hf as (_ & _ & _ & _ & _ & Hrc3).
      destruct Hr1 as (Hrc1 & _). lia.
    + pose proof (transfer_loop_spec ss fdin (iters e) s1) as Hl2.
      rewrite El in Hl2. destruct Hl2 as (Hev2 & (Hfl2 & _) & _).
      pose proof (finish_spec e ss fdin fdout s2) as Hf.
      rewrite Ef in Hf.
      destruct Hf as (_ & _ & _ & _ & _ & _ & tf & -> & _ & Hcount).
      assert (Hp2 : count is_post_dir t2 = 0%nat)
        by (apply count_none; by_class Hev2 class_loop).
      assert (Hph : count is_post_dir
                      (handshake fdin fdout (server (sess_opts ss)) (phase s2))
                    = 0%nat).
      { unfold handshake.
        destruct (1 =? phase s2), (server (sess_opts ss)); reflexivity. }
      rewrite !count_app, Hp1, Hp2, Hcount, Hph, Hpc. simpl.
      destruct Hr1 as (_ & Hfl1 & _).
      rewrite Hfl2. rewrite Hl in Hfl1. injection Hfl1 as ->.
      destruct (_ || _); unfold count; simpl; lia.
Qed.

Lemma fixup_count_witness :
  none is_meta_syscall (snd (run (cooperative [sub; sub_a]) mirror_dry))
  = true /\
  count is_post_dir (snd (run (cooperative [sub; sub_deep]) mirror)) = 2%nat.
Proof.
  split.
  - apply (fixup_count (cooperative [sub; sub_a]) (client mirror_dry)
             0 1 "dst").
    left. reflexivity.
  - apply (proj2 (fixup_count (cooperative [sub; sub_deep]) (client mirror)
                    0 1 "dst") [sub; sub_deep]); reflexivity.
Defined.

(** *** C10: the assertion on the phase counter *)






(** ** Further properties of [post_dir] and [rsync_receiver] *)

Import Faults.

Section MoreStageFacts.
Variable e : env.
Variable ss : sess.
Variables fdin fdout : Z.
Variable root : string.

Local Abbreviation o := (sess_opts ss).

Lemma setup_more :
  match setup e ss fdin fdout root init with
  | (res, s, t) =>
      t !! 0%nat = Some (EvPledge "unveil rpath cpath wpath stdio fattr") /\
      precedesb is_mkpath is_umask t = true /\
      precedesb is_umask is_open t = true /\
      (count is_umask t <=? 1)%nat = true /\
      (count is_unveil t <=? 2)%nat = true /\
      none is_poll t && none is_uploader t && none is_downloader t &&
        none is_flush t && none is_close t && none is_flist_free t = true /\
      dfd s = (if none is_open t then -1 else open_rc e) /\
      fl s = (if none is_flist_recv t then []
              else from_option id [] (flist_recv_res e)) /\
      dfl s = (if none is_gen_local t then None
               else from_option id None (gen_local_res e)) /\
      implb (negb (del o && recursive o))
            (none is_gen_local t && none is_flist_del t) = true /\
      (gen_local_res e = Some None -> none is_flist_del t = true) /\
      (none is_lockdown t = false -> unveil_rc e <> -1) /\
      (none is_flist_del t = false ->
       unveil_rc e <> -1 /\ unveil_lock_rc e <> -1 /\
       count is_unveil t = 2%nat) /\
      match res with
      | Ret _ =>
          count is_error t = 0%nat /\
          newdir s = replicate (flsz s) 0 /\ pfd1_fd s = -1 /\
          idx s = 0%nat /\ count is_unveil t = 2%nat /\
          unveil_rc e <> -1 /\ unveil_lock_rc e <> -1
      | GotoOut =>
          (rc s = 0 /\ count is_error t = 1%nat) \/
          (rc s = 1 /\ count is_error t = 0%nat)
      | AssertFail | Pending => False
      end
  end.
Proof.
  unfold setup, preamble, receive_list, empty_list_exit,
    prepare_destination, enumerate_local, sandbox, delete_extraneous,
    allocate_newdir, init_poll.
  unfold_m. unfold flsz. simpl. repeat step.
  all: try destruct (del (sess_opts ss));
    try destruct (recursive (sess_opts ss)); try discriminate.
  all: unfold count; simpl.
  all: repeat split; auto; try discriminate.
  all: try (intros; decode_tests; congruence).
Qed.

Lemma store_newdir_length (ws : list (nat * Z)) (nd : list Z) :
  length (store_newdir ws nd) = length nd.
Proof.
  unfold store_newdir. revert nd.
  induction ws as [|w ws IH]; intros nd; simpl; [reflexivity|].
  rewrite IH. apply length_insert.
Qed.

Lemma loop_body_more (r : iter) (s : locals) :
  match loop_body ss fdin r s with
  | (res, s', t) =>
      count is_poll t = 1%nat /\
      (count is_uploader t <= 1)%nat /\
      (count is_downloader t <= 1)%nat /\
      (mplex_reads ss = false -> none is_flush t = true) /\
      (mplex_reads ss = true ->
       (count is_downloader t <= count is_flush t)%nat) /\
      length (newdir s') = length (newdir s) /\
      match res with
      | Ret _ | AssertFail => count is_error t = 0%nat
      | GotoOut => count is_error t = 1%nat
      | Pending => False
      end
  end.
Proof.
  unfold loop_body, run_uploader, flush_mplex, run_downloader.
  unfold_m. simpl. repeat step.
  all: unfold count; simpl; rewrite ?store_newdir_length.
  all: repeat split; auto; try discriminate.
Qed.

Lemma transfer_loop_more (rs : list iter) (s : locals) :
  match transfer_loop ss fdin rs s with
  | (res, s', t) =>
      (count is_poll t <= length rs)%nat /\
      (count is_uploader t <= count is_poll t)%nat /\
      (count is_downloader t <= count is_poll t)%nat /\
      (mplex_reads ss = false -> none is_flush t = true) /\
      (mplex_reads ss = true ->
       (count is_downloader t <= count is_flush t)%nat) /\
      length (newdir s') = length (newdir s) /\
      match res with
      | Ret _ | AssertFail => count is_error t = 0%nat
      | GotoOut => count is_error t = 1%nat
      | Pending => count is_error t = 0%nat /\ count is_poll t = length rs
      end
  end.
Proof.
  revert s. induction rs as [|r rs IH]; intros s.
  - simpl. unfold pending, count. simpl. repeat split; auto.
  - simpl. unfold bind.
    pose proof (loop_body_more r s) as Hb.
    destruct (loop_body ss fdin r s) as [[res s1] t1].
    destruct Hb as (Hp & Hu & Hd & Hnf & Hf & Hn & Hres).
    destruct res as [[]| | |]; try contradiction.
    + unfold ret. rewrite app_nil_r. repeat split; auto; lia.
    + specialize (IH s1).
      destruct (transfer_loop ss fdin rs s1) as [[res2 s2] t2].
      destruct IH as (Hp2 & Hu2 & Hd2 & Hnf2 & Hf2 & Hn2 & Hres2).
      rewrite !count_app, none_app.
      repeat split; try lia.
      * intros Hm. now rewrite Hnf, Hnf2.
      * intros Hm. specialize (Hf Hm). specialize (Hf2 Hm). lia.
      * destruct res2; lia.
    + repeat split; auto; lia.
    + repeat split; auto; lia.
Qed.

Lemma post_dir_more (i : nat) (rootfd : Z) (f : flist) (nd : Z) (s : locals) :
  match post_dir e ss i rootfd f nd s with
  | (Ret z, _, t) =>
      (z = 0 /\ count is_error t = 1%nat) \/
      (z = 1 /\ count is_error t = 0%nat)
  | _ => False
  end.
Proof.
  unfold post_dir. unfold_m. simpl. repeat step; unfold count; simpl; auto.
Qed.

Lemma fixup_from_more (l : list flist) (i : nat) (s : locals) :
  match fixup_from e ss i l s with
  | (Ret _, _, t) => count is_error t = 0%nat
  | (GotoOut, _, t) => count is_error t = 1%nat
  | _ => False
  end.
Proof.
  revert i s. induction l as [|f l IH]; intros i s; [reflexivity|].
  simpl. unfold bind at 1.
  destruct (S_ISDIR (mode (st f))) eqn:Hdir; simpl; unfold_m.
  - pose proof (post_dir_more i (dfd s) f (nth i (newdir s) 0) s) as Hp.
    destruct (post_dir e ss i (dfd s) f (nth i (newdir s) 0) s)
      as [[res s1] t1].
    destruct res as [z| | |]; try contradiction.
    destruct Hp as [[-> Hc]|[-> Hc]]; simpl.
    + now rewrite !app_nil_r.
    + specialize (IH (S i) (set_idx (S i) s1)).
      destruct (fixup_from e ss (S i) l (set_idx (S i) s1)) as [[res2 s2] t2].
      rewrite !app_nil_r.
      destruct res2; try contradiction; rewrite count_app, Hc, IH; reflexivity.
  - specialize (IH (S i) (set_idx (S i) s)).
    destruct (fixup_from e ss (S i) l (set_idx (S i) s)) as [[res2 s2] t2].
    destruct res2; try contradiction; exact IH.
Qed.

Lemma fixup_dirs_more (s : locals) :
  match fixup_dirs e ss s with
  | (Ret _, _, t) => count is_error t = 0%nat
  | (GotoOut, _, t) => count is_error t = 1%nat
  | _ => False
  end.
Proof.
  unfold fixup_dirs.
  destruct (preserve_times o || preserve_perms o); [|reflexivity].
  unfold_m. simpl.
  pose proof (fixup_from_more (fl s) 0 (set_idx 0 s)) as H.
  destruct (fixup_from e ss 0 (fl s) (set_idx 0 s)) as [[res s1] t1].
  destruct res; exact H.
Qed.

Lemma closing_more (s : locals) :
  phase s = 1 ->
  match (phase_handshake e fdin fdout >> read_stats e ss fdin >>
         goodbye e fdout) s with
  | (res, s', t) =>
      (count is_stats t <= 1)%nat /\ (count is_sentinel t <= 2)%nat /\
      count is_post_dir t = 0%nat /\
      (server o = true -> none is_stats t = true) /\
      (none is_stats t = false -> ack_res e = Some (-1)) /\
      (ack_res e <> Some (-1) ->
       res = GotoOut /\ none is_stats t = true /\
       (count is_sentinel t <= 1)%nat) /\
      match res with
      | Ret _ => count is_error t = 0%nat
      | GotoOut => count is_error t = 1%nat
      | AssertFail | Pending => False
      end
  end.
Proof.
  intros Hph.
  unfold phase_handshake, read_stats, goodbye.
  unfold_m. simpl. rewrite Hph. simpl. repeat step.
  all: repeat match goal with
       | H : Pos.eqb 1 ?q = true |- _ => apply Pos.eqb_eq in H; subst q
       | H : Pos.eqb 1 ?q = false |- _ => apply Pos.eqb_neq in H
       end.
  all: unfold count; simpl.
  all: repeat split; auto; try discriminate; try lia.
  all: try (intros; decode_tests; congruence).
Qed.

Lemma finish_more (s : locals) :
  phase s = 1 ->
  match finish e ss fdin fdout s with
  | (res, s', t) =>
      (count is_stats t <= 1)%nat /\ (count is_sentinel t <= 2)%nat /\
      (server o = true -> none is_stats t = true) /\
      (none is_stats t = false -> ack_res e = Some (-1)) /\
      (ack_res e <> Some (-1) ->
       res = GotoOut /\ none is_stats t = true /\
       (count is_sentinel t <= 1)%nat) /\
      (none is_sentinel t = false ->
       count is_post_dir t =
       if preserve_times o || preserve_perms o then count_dirs (fl s)
       else 0%nat) /\
      match res with
      | Ret _ => count is_error t = 0%nat
      | GotoOut => count is_error t = 1%nat
      | AssertFail | Pending => False
      end
  end.
Proof.
  intros Hph. unfold finish. unfold bind at 1.
  pose proof (fixup_dirs_spec e ss s) as Hf.
  pose proof (fixup_dirs_more s) as He.
  destruct (fixup_dirs e ss s) as [[res1 s1] t1].
  destruct Hf as (_ & Hph1 & Hev & _ & Hres).
  assert (Hst : none is_stats t1 = true) by (by_class Hev class_fixup).
  assert (Hse : none is_sentinel t1 = true) by (by_class Hev class_fixup).
  destruct res1; try contradiction.
  - rewrite <- Hph1 in Hph. pose proof (closing_more s1 Hph) as Hc.
    destruct ((phase_handshake e fdin fdout >> read_stats e ss fdin >>
               goodbye e fdout) s1) as [[res2 s2] t2].
    destruct Hc as (Hc1 & Hc2 & Hc3 & Hc4 & Hc5 & Hc6 & Hc7).
    rewrite !count_app, !none_app, Hst, Hse, Hres, Hc3.
    rewrite (count_none _ _ Hst), (count_none _ _ Hse). simpl.
    repeat split; auto; try lia.
    + now apply Hc6.
    + now apply Hc6.
    + apply Hc6 in H. lia.
    + destruct res2; try contradiction; lia.
  - rewrite Hst, Hse, (count_none _ _ Hst), (count_none _ _ Hse).
    repeat split; auto; try lia; try discriminate.
Qed.
End MoreStageFacts.

Section MoreSessionFacts.
Variable e : env.
Variable ss : sess.
Variables fdin fdout : Z.
Variable root : string.

Local Abbreviation o := (sess_opts ss).
Local Abbreviation session := (rsync_receiver e ss fdin fdout root).

Lemma cleanup_frame (s s' : locals) : same_frame s s' -> cleanup s' = cleanup s.
Proof.
  intros (Hfl & Hdfl & Hdfd & _). unfold cleanup, flsz, dflsz.
  now rewrite Hfl, Hdfl, Hdfd.
Qed.

Lemma cleanup_quiet (s : locals) :
  count is_error (cleanup s) = 0%nat /\ none is_poll (cleanup s) = true /\
  none is_stats (cleanup s) = true /\ none is_sentinel (cleanup s) = true /\
  none is_post_dir (cleanup s) = true /\ none is_umask (cleanup s) = true /\
  none is_open (cleanup s) = true /\ none is_mkpath (cleanup s) = true /\
  none is_unveil (cleanup s) = true /\ none is_transfer (cleanup s) = true.
Proof. unfold cleanup. destruct (-1 =? dfd s); repeat split. Qed.

(** The parts of the trace of a call: set-up, loop, closing stage and
    releases, with what is known of each. *)
Lemma session_anatomy :
  match session with
  | (out, t) =>
      exists r1 s1 t1 t2 t3 tc,
        setup e ss fdin fdout root init = (r1, s1, t1) /\
        t = t1 ++ t2 ++ t3 ++ tc /\
        (forallb loop_event t2 = true /\
         (count is_poll t2 <= length (iters e))%nat /\
         (count is_uploader t2 <= count is_poll t2)%nat /\
         (count is_downloader t2 <= count is_poll t2)%nat /\
         (mplex_reads ss = false -> none is_flush t2 = true) /\
         (mplex_reads ss = true ->
          (count is_downloader t2 <= count is_flush t2)%nat)) /\
        (forallb finish_event t3 = true /\
         (count is_stats t3 <= 1)%nat /\ (count is_sentinel t3 <= 2)%nat /\
         (server o = true -> none is_stats t3 = true) /\
         (none is_stats t3 = false -> ack_res e = Some (-1)) /\
         (ack_res e <> Some (-1) ->
          none is_stats t3 = true /\ (count is_sentinel t3 <= 1)%nat) /\
         (none is_sentinel t3 = false ->
          count is_post_dir t3 =
          if preserve_times o || preserve_perms o then count_dirs (fl s1)
          else 0%nat)) /\
        (r1 = Ret tt \/ (t2 = [] /\ t3 = [])) /\
        match out with
        | Returned v =>
            tc = cleanup s1 /\
            ((v = 0 /\ count is_error (t1 ++ t2 ++ t3) = 1%nat) \/
             (v = 1 /\ count is_error (t1 ++ t2 ++ t3) = 0%nat)) /\
            (ack_res e <> Some (-1) -> v = 1 -> r1 = GotoOut) /\
            (r1 = GotoOut -> v = rc s1)
        | Waiting =>
            tc = [] /\ t3 = [] /\ count is_error (t1 ++ t2) = 0%nat /\
            count is_poll t2 = length (iters e)
        | Aborted => False
        end
  end.
Proof.
  pose proof (receiver_run_shape e ss fdin fdout root) as Hrun.
  pose proof (setup_spec e ss fdin fdout root) as Hs.
  pose proof (setup_more e ss fdin fdout root) as Hm.
  destruct session as [out t].
  destruct Hrun as [s1 t1 Es|s1 t1 s2 t2 Es El|s1 t1 s2 t2 Es El
                   |s1 t1 s2 t2 s3 t3 Es El Ef|s1 t1 s2 t2 s3 t3 Es El Ef];
    rewrite Es in *;
    destruct Hs as (_ & _ & _ & _ & _ & _ & _ & Hph1 & Hr1);
    destruct Hm as (_ & _ & _ & _ & _ & _ & _ & _ & _ & _ & _ & _ & _ & Hm).
  - exists GotoOut, s1, t1, [], [], (cleanup s1).
    rewrite !app_nil_r. unfold count at 1 2 3 4 5 6 7 8. simpl.
    repeat split; auto; try lia; try discriminate.
  - pose proof (transfer_loop_spec ss fdin (iters e) s1) as Hl.
    pose proof (transfer_loop_more ss fdin (iters e) s1) as Hl'.
    rewrite El in Hl, Hl'. destruct Hl as (Hev2 & Hfr & _).
    destruct Hl' as (L1 & L2 & L3 & L4 & L5 & _ & L7).
    exists (Ret tt), s1, t1, t2, [], (cleanup s1).
    rewrite (cleanup_frame _ _ Hfr), !app_nil_r.
    destruct Hfr as (_ & _ & _ & Hrc). destruct Hr1 as (Hrc1 & _).
    destruct Hm as (Herr1 & _).
    unfold count at 6 7 8. simpl.
    repeat split; auto; try lia; try discriminate.
    all: try (intros _ Hv; lia).
    all: left; split; [lia|]; rewrite count_app; lia.
  - pose proof (transfer_loop_spec ss fdin (iters e) s1) as Hl.
    pose proof (transfer_loop_more ss fdin (iters e) s1) as Hl'.
    rewrite El in Hl, Hl'. destruct Hl as (Hev2 & Hfr & _).
    destruct Hl' as (L1 & L2 & L3 & L4 & L5 & _ & L7 & L8).
    exists (Ret tt), s1, t1, t2, [], [].
    rewrite !app_nil_r. destruct Hm as (Herr1 & _).
    unfold count at 6 7 8. simpl.
    repeat split; auto; try lia; try discriminate.
    rewrite count_app. lia.
  - pose proof (transfer_loop_spec ss fdin (iters e) s1) as Hl.
    pose proof (transfer_loop_more ss fdin (iters e) s1) as Hl'.
    rewrite El in Hl, Hl'. destruct Hl as (Hev2 & Hfr & Hph2).
    destruct Hl' as (L1 & L2 & L3 & L4 & L5 & _ & L7).
    pose proof (finish_spec e ss fdin fdout s2) as Hf.
    pose proof (finish_more e ss fdin fdout s2 (proj2 Hph2)) as Hf'.
    rewrite Ef in Hf, Hf'.
    destruct Hf as (Hfl3 & Hdfl3 & Hdfd3 & Hev3 & _ & Hrc3).
    destruct Hf' as (F1 & F2 & F3 & F4 & F5 & F6 & F7).
    exists (Ret tt), s1, t1, t2, t3, (cleanup s1).
    assert (Hcl : cleanup s3 = cleanup s1).
    { rewrite <- (cleanup_frame _ _ Hfr). unfold cleanup, flsz, dflsz.
      now rewrite Hfl3, Hdfl3, Hdfd3. }
    rewrite Hcl. destruct Hfr as (Hfl2 & _ & _ & Hrc2).
    destruct Hr1 as (Hrc1 & _). destruct Hm as (Herr1 & _).
    rewrite Hfl2 in F6.
    repeat split; auto; try lia; try discriminate; try (now apply F5).
    all: try (intros _ Hv; lia).
    all: left; split; [lia|]; rewrite !count_app; lia.
  - pose proof (transfer_loop_spec ss fdin (iters e) s1) as Hl.
    pose proof (transfer_loop_more ss fdin (iters e) s1) as Hl'.
    rewrite El in Hl, Hl'. destruct Hl as (Hev2 & Hfr & Hph2).
    destruct Hl' as (L1 & L2 & L3 & L4 & L5 & _ & L7).
    pose proof (finish_spec e ss fdin fdout s2) as Hf.
    pose proof (finish_more e ss fdin fdout s2 (proj2 Hph2)) as Hf'.
    rewrite Ef in Hf, Hf'.
    destruct Hf as (Hfl3 & Hdfl3 & Hdfd3 & Hev3 & _ & Hrc3 & _).
    destruct Hf' as (F1 & F2 & F3 & F4 & F5 & F6 & F7).
    exists (Ret tt), s1, t1, t2, t3, (cleanup s1).
    assert (Hcl : cleanup s3 = cleanup s1).
    { rewrite <- (cleanup_frame _ _ Hfr). unfold cleanup, flsz, dflsz.
      now rewrite Hfl3, Hdfl3, Hdfd3. }
    rewrite Hcl. destruct Hfr as (Hfl2 & _ & _ & Hrc2).
    destruct Hm as (Herr1 & _).
    rewrite Hfl2 in F6.
    repeat split; auto; try lia; try discriminate; try (now apply F5).
    all: try (intros Hack _; apply F5 in Hack; destruct Hack; discriminate).
    all: right; split; [lia|]; rewrite !count_app; lia.
Qed.
End MoreSessionFacts.

Lemma precedesb_none_r (p q : event -> bool) (t : trace) :
  none q t = true -> precedesb p q t = true.
Proof.
  induction t as [|x t IH]; simpl; [easy|].
  unfold none in *. simpl. intros [Hx Ht]%andb_true_iff.
  rewrite Hx, IH by assumption. reflexivity.
Qed.

Lemma count_parts (p : event -> bool) (t1 t2 t3 tc : trace) :
  count p (t1 ++ t2 ++ t3 ++ tc)
  = (count p t1 + count p t2 + count p t3 + count p tc)%nat.
Proof. rewrite !count_app. lia. Qed.

Lemma none_parts (p : event -> bool) (t1 t2 t3 tc : trace) :
  none p (t1 ++ t2 ++ t3 ++ tc)
  = none p t1 && none p t2 && none p t3 && none p tc.
Proof. rewrite !none_app. now rewrite !andb_assoc. Qed.

Lemma none_false_elem (p : event -> bool) (t : trace) :
  none p t = false <-> exists ev, ev ∈ t /\ p ev = true.
Proof.
  split.
  - intros H. induction t as [|x t IH]; [discriminate|].
    unfold none in *. simpl in H.
    destruct (p x) eqn:Hx.
    + exists x. split; [apply list_elem_of_here|assumption].
    + simpl in H. destruct (IH H) as (ev & Hin & Hev).
      exists ev. split; [now apply list_elem_of_further|assumption].
  - intros (ev & Hin & Hev). destruct (none p t) eqn:Hn; [|reflexivity].
    rewrite none_spec in Hn. rewrite (Hn ev Hin) in Hev. discriminate.
Qed.

Lemma class_loop_more ev :
  loop_event ev = true ->
  is_close ev = false /\ is_flist_free ev = false /\ is_pledge ev = false /\
  is_fchmodat ev = false.
Proof. destruct ev; simpl; intros; try discriminate; auto. Qed.

Lemma class_finish_more ev :
  finish_event ev = true ->
  is_poll ev = false /\ is_uploader ev = false /\ is_downloader ev = false /\
  is_flush ev = false /\ is_close ev = false /\ is_flist_free ev = false /\
  is_transfer ev = false /\ is_pledge ev = false.
Proof. destruct ev; simpl; intros; try discriminate; auto 10. Qed.

Lemma class_cleanup_more ev :
  cleanup_event ev = true ->
  is_poll ev = false /\ is_uploader ev = false /\ is_downloader ev = false /\
  is_flush ev = false /\ is_error ev = false /\ is_transfer ev = false /\
  is_pledge ev = false /\ is_fchmodat ev = false.
Proof. destruct ev; simpl; intros; try discriminate; auto 10. Qed.

(** X1: a call that returns has logged exactly one error message when it
    returns 0 and none when it returns 1; a call that is still waiting
    has logged none; no call ends in the assertion. *)
Theorem failure_is_logged_once
    (e : env) (ss : sess) (fdin fdout : Z) (root : string) :
  match rsync_receiver e ss fdin fdout root with
  | (Returned v, t) =>
      (v = 0 /\ count is_error t = 1%nat) \/
      (v = 1 /\ count is_error t = 0%nat)
  | (Waiting, t) => count is_error t = 0%nat
  | (Aborted, _) => False
  end.
Proof.
  pose proof (session_anatomy e ss fdin fdout root) as Ha.
  destruct (rsync_receiver e ss fdin fdout root) as [out t].
  destruct Ha as (r1 & s1 & t1 & t2 & t3 & tc & _ & -> & _ & _ & _ & Hout).
  destruct out as [v| |]; try contradiction.
  - destruct Hout as (-> & Herr & _).
    rewrite !app_assoc, count_app, <- !app_assoc.
    destruct (cleanup_quiet s1) as (-> & _). lia.
  - destruct Hout as (-> & -> & Herr & _). now rewrite !app_nil_r.
Qed.

(** X2: [poll] is called at most once per recorded turn, and once per
    turn when the call is still waiting; the uploader and the downloader
    are called at most once per [poll]; [io_read_flush] is never called
    without multiplexed reads, and with them the downloader is never
    called more often than [io_read_flush]. *)
Theorem turn_accounting
    (e : env) (ss : sess) (fdin fdout : Z) (root : string) :
  match rsync_receiver e ss fdin fdout root with
  | (out, t) =>
      (count is_poll t <= length (iters e))%nat /\
      (count is_uploader t <= count is_poll t)%nat /\
      (count is_downloader t <= count is_poll t)%nat /\
      (mplex_reads ss = false -> none is_flush t = true) /\
      (mplex_reads ss = true ->
       (count is_downloader t <= count is_flush t)%nat) /\
      (out = Waiting -> count is_poll t = length (iters e))
  end.
Proof.
  pose proof (session_anatomy e ss fdin fdout root) as Ha.
  pose proof (setup_more e ss fdin fdout root) as Hm.
  destruct (rsync_receiver e ss fdin fdout root) as [out t].
  destruct Ha as (r1 & s1 & t1 & t2 & t3 & tc & Es & -> & Hl & Hf & _ & Hout).
  rewrite Es in Hm.
  destruct Hm as (_ & _ & _ & _ & _ & Hq & _).
  repeat (apply andb_true_iff in Hq as [Hq ?]).
  destruct Hl as (Hev2 & L1 & L2 & L3 & L4 & L5).
  destruct Hf as (Hev3 & _).
  assert (Hc : forallb cleanup_event tc = true).
  { destruct out as [v| |]; try contradiction.
    - destruct Hout as (-> & _). apply cleanup_events.
    - destruct Hout as (-> & _). reflexivity. }
  assert (P3 : none is_poll t3 = true) by (by_class Hev3 class_finish_more).
  assert (U3 : none is_uploader t3 = true) by (by_class Hev3 class_finish_more).
  assert (D3 : none is_downloader t3 = true)
    by (by_class Hev3 class_finish_more).
  assert (F3 : none is_flush t3 = true) by (by_class Hev3 class_finish_more).
  assert (Pc : none is_poll tc = true) by (by_class Hc class_cleanup_more).
  assert (Uc : none is_uploader tc = true) by (by_class Hc class_cleanup_more).
  assert (Dc : none is_downloader tc = true)
    by (by_class Hc class_cleanup_more).
  assert (Fc : none is_flush tc = true) by (by_class Hc class_cleanup_more).
  rewrite !count_parts, none_parts.
  repeat match goal with
         | H : none _ _ = true |- _ =>
             rewrite (count_none _ _ H); rewrite ?H; clear H
         end.
  simpl. rewrite ?Nat.add_0_r, ?andb_true_r.
  repeat split; auto.
  intros ->. now destruct Hout as (_ & _ & _ & ?).
Qed.

Lemma tail_quiet (p : event -> bool) (t1 t2 t3 tc : trace) :
  (forall ev, late_event ev = true -> p ev = false) ->
  forallb loop_event t2 = true -> forallb finish_event t3 = true ->
  forallb cleanup_event tc = true ->
  none p (t1 ++ t2 ++ t3 ++ tc) = none p t1.
Proof.
  intros Hp H2 H3 Hc. rewrite none_parts.
  assert (N2 : none p t2 = true).
  { eapply none_weaken; [|exact H2]. intros ev Hev. apply Hp.
    now apply class_loop in Hev. }
  assert (N3 : none p t3 = true).
  { eapply none_weaken; [|exact H3]. intros ev Hev. apply Hp.
    now apply class_finish. }
  assert (Nc : none p tc = true).
  { eapply none_weaken; [|exact Hc]. intros ev Hev. apply Hp.
    now apply class_cleanup in Hev. }
  now rewrite N2, N3, Nc, !andb_true_r.
Qed.

(** X3: a call that returns ends with [flist_free] of the received
    list, [flist_free] of the local list and [free] of the flag array,
    with the lengths the lists were stored with, and releases no list
    before; a call that is still waiting has released nothing. *)
Theorem lists_released_once
    (e : env) (ss : sess) (fdin fdout : Z) (root : string) :
  match rsync_receiver e ss fdin fdout root with
  | (Returned _, t) =>
      exists pre,
        t = pre ++ [EvFlistFree (length (received_list e t));
                    EvFlistFree (from_option length 0%nat (local_list e t));
                    EvFree] /\
        none is_flist_free pre = true
  | (Waiting, t) => none is_flist_free t = true
  | (Aborted, _) => False
  end.
Proof.
  pose proof (session_anatomy e ss fdin fdout root) as Ha.
  pose proof (setup_more e ss fdin fdout root) as Hm.
  destruct (rsync_receiver e ss fdin fdout root) as [out t].
  destruct Ha as (r1 & s1 & t1 & t2 & t3 & tc & Es & Ht & Hl & Hf & _ & Hout).
  rewrite Es in Hm.
  destruct Hm as (_ & _ & _ & _ & _ & Hq & _ & Hfl & Hdfl & _).
  repeat (apply andb_true_iff in Hq as [Hq ?]).
  destruct Hl as (Hev2 & _). destruct Hf as (Hev3 & _).
  assert (F2 : none is_flist_free t2 = true) by (by_class Hev2 class_loop_more).
  assert (F3 : none is_flist_free t3 = true)
    by (by_class Hev3 class_finish_more).
  destruct out as [v| |]; try contradiction.
  - destruct Hout as (-> & _).
    assert (Hc := cleanup_events s1).
    unfold received_list, local_list. rewrite Ht.
    rewrite !(tail_quiet _ t1 t2 t3 (cleanup s1)); try assumption;
      try (intros ev Hev; apply class_late in Hev; tauto).
    rewrite <- Hfl, <- Hdfl.
    exists (t1 ++ t2 ++ t3 ++ (if -1 =? dfd s1 then [] else [EvClose (dfd s1)])).
    split.
    + unfold cleanup, flsz, dflsz. now rewrite <- !app_assoc.
    + rewrite none_parts, F2, F3.
      replace (none is_flist_free t1) with true by (symmetry; assumption).
      now destruct (-1 =? dfd s1).
  - destruct Hout as (-> & -> & _). subst t. rewrite !app_nil_r, none_app, F2.
    now rewrite andb_true_r.
Qed.

(** X4: a call that returns closes the directory handle exactly once when
    [open] was called and did not return -1, and not at all otherwise;
    what it closes is what [open] returned, and the [close] comes after
    the [open]. *)
Theorem handle_closed_iff_opened
    (e : env) (ss : sess) (fdin fdout : Z) (root : string) :
  match rsync_receiver e ss fdin fdout root with
  | (Returned _, t) =>
      count is_close t =
      (if none is_open t || (open_rc e =? -1) then 0%nat else 1%nat) /\
      (forall d, EvClose d ∈ t -> d = open_rc e) /\
      precedes is_open is_close t
  | (Waiting, t) => none is_close t = true
  | (Aborted, _) => False
  end.
Proof.
  pose proof (session_anatomy e ss fdin fdout root) as Ha.
  pose proof (setup_more e ss fdin fdout root) as Hm.
  destruct (rsync_receiver e ss fdin fdout root) as [out t].
  destruct Ha as (r1 & s1 & t1 & t2 & t3 & tc & Es & Ht & Hl & Hf & _ & Hout).
  rewrite Es in Hm.
  destruct Hm as (_ & _ & _ & _ & _ & Hq & Hdfd & _).
  repeat (apply andb_true_iff in Hq as [Hq ?]).
  destruct Hl as (Hev2 & _). destruct Hf as (Hev3 & _).
  assert (C1 : none is_close t1 = true) by assumption.
  assert (C2 : none is_close t2 = true) by (by_class Hev2 class_loop_more).
  assert (C3 : none is_close t3 = true) by (by_class Hev3 class_finish_more).
  destruct out as [v| |]; try contradiction.
  - destruct Hout as (-> & _).
    assert (Hc := cleanup_events s1).
    assert (Hopen : none is_open t = none is_open t1).
    { rewrite Ht. apply tail_quiet; try assumption.
      intros ev Hev. apply class_late in Hev. tauto. }
    rewrite Hopen. subst t.
    assert (Hcl : cleanup s1 =
                  (if none is_open t1 || (open_rc e =? -1) then []
                   else [EvClose (open_rc e)]) ++
                  [EvFlistFree (flsz s1); EvFlistFree (dflsz s1); EvFree]).
    { unfold cleanup. rewrite Hdfd.
      destruct (none is_open t1); [reflexivity|].
      rewrite orb_false_l, (Z.eqb_sym (-1)). reflexivity. }
    rewrite Hcl. split; [|split].
    + rewrite count_parts, (count_none _ _ C1), (count_none _ _ C2),
        (count_none _ _ C3).
      now destruct (none is_open t1 || (open_rc e =? -1)).
    + intros d Hin.
      rewrite !elem_of_app in Hin.
      destruct Hin as [Hin|[Hin|[Hin|[Hin|Hin]]]].
      * rewrite none_spec in C1. now apply C1 in Hin.
      * rewrite none_spec in C2. now apply C2 in Hin.
      * rewrite none_spec in C3. now apply C3 in Hin.
      * destruct (none is_open t1 || (open_rc e =? -1)).
        -- now apply elem_of_nil in Hin.
        -- apply list_elem_of_singleton in Hin. congruence.
      * apply list_elem_of_In in Hin. simpl in Hin.
        intuition discriminate.
    + apply precedesb_sound, precedesb_app.
      * now apply precedesb_none_r.
      * rewrite !none_app.
        assert (Hlate : forall ev, late_event ev = true -> is_open ev = false)
          by (intros ev Hev; apply class_late in Hev; tauto).
        assert (O2 : none is_open t2 = true).
        { eapply none_weaken; [|exact Hev2]. intros ev Hev.
          apply Hlate. now apply class_loop in Hev. }
        assert (O3 : none is_open t3 = true).
        { eapply none_weaken; [|exact Hev3]. intros ev Hev.
          apply Hlate. now apply class_finish. }
        rewrite O2, O3.
        now destruct (none is_open t1 || (open_rc e =? -1)).
  - destruct Hout as (-> & -> & _). subst t.
    now rewrite !app_nil_r, none_app, C1, C2.
Qed.

Lemma session_split
    (e : env) (ss : sess) (fdin fdout : Z) (root : string) :
  match rsync_receiver e ss fdin fdout root with
  | (_, t) =>
      exists r1 s1 t1 tail,
        setup e ss fdin fdout root init = (r1, s1, t1) /\
        t = t1 ++ tail /\ forallb late_event tail = true /\
        (r1 = Ret tt \/ none is_transfer tail && none is_meta_syscall tail = true)
  end.
Proof.
  pose proof (session_anatomy e ss fdin fdout root) as Ha.
  destruct (rsync_receiver e ss fdin fdout root) as [out t].
  destruct Ha as (r1 & s1 & t1 & t2 & t3 & tc & Es & -> & Hl & Hf & Hr & Hout).
  destruct Hl as (Hev2 & _). destruct Hf as (Hev3 & _).
  assert (Hc : forallb cleanup_event tc = true).
  { destruct out as [v| |]; try contradiction.
    - destruct Hout as (-> & _). apply cleanup_events.
    - destruct Hout as (-> & _). reflexivity. }
  exists r1, s1, t1, (t2 ++ t3 ++ tc).
  split; [assumption|]. split; [reflexivity|]. split.
  - rewrite !forallb_app. rewrite (late_of_loop _ Hev2), (late_of_finish _ Hev3).
    simpl. eapply forallb_weaken; [|exact Hc].
    intros ev Hev. now apply class_cleanup in Hev.
  - destruct Hr as [Hr|[-> ->]]; [now left|right]. simpl.
    assert (T : none is_transfer tc = true) by (by_class Hc class_cleanup_more).
    assert (M : none is_meta_syscall tc = true) by (by_class Hc class_cleanup).
    now rewrite T, M.
Qed.

(** X5: the destination is created before the umask is cleared (so under
    the caller's umask), the umask is cleared before the destination is
    opened and before any call of the transfer loop, and it is cleared at
    most once. *)
Theorem umask_reset_order
    (e : env) (ss : sess) (fdin fdout : Z) (root : string) :
  precedes is_mkpath is_umask (snd (rsync_receiver e ss fdin fdout root)) /\
  precedes is_umask is_open (snd (rsync_receiver e ss fdin fdout root)) /\
  precedes is_umask is_transfer (snd (rsync_receiver e ss fdin fdout root)) /\
  (count is_umask (snd (rsync_receiver e ss fdin fdout root)) <= 1)%nat.
Proof.
  pose proof (session_split e ss fdin fdout root) as Ha.
  pose proof (setup_more e ss fdin fdout root) as Hm.
  destruct (rsync_receiver e ss fdin fdout root) as [out t].
  destruct Ha as (r1 & s1 & t1 & tail & Es & -> & Hlate & _).
  rewrite Es in Hm.
  destruct Hm as (_ & Hmu & Huo & Hcu & _ & Hq & _). simpl.
  repeat (apply andb_true_iff in Hq as [Hq ?]).
  assert (Mk : none is_mkpath tail = true) by (by_class Hlate class_late).
  assert (Um : none is_umask tail = true) by (by_class Hlate class_late).
  repeat split.
  - now apply precedesb_sound, precedesb_app.
  - now apply precedesb_sound, precedesb_app.
  - apply precedesb_sound, precedesb_app; [|assumption].
    apply precedesb_none_r.
    assert (Hs := setup_spec e ss fdin fdout root). rewrite Es in Hs.
    destruct Hs as (Hev1 & _). by_class Hev1 class_setup.
  - rewrite count_app, (count_none _ _ Um). apply Nat.leb_le in Hcu. lia.
Qed.

(** X6: every [unveil] call comes before every removal, every call of
    the transfer loop and every directory metadata call; and when one of
    these is made at all, both [unveil] calls were made and neither
    returned -1. *)
Theorem sandbox_before_work
    (e : env) (ss : sess) (fdin fdout : Z) (root : string) :
  precedes is_unveil needs_sandbox (snd (rsync_receiver e ss fdin fdout root)) /\
  ((exists ev, ev ∈ snd (rsync_receiver e ss fdin fdout root) /\
               needs_sandbox ev = true) ->
   unveil_rc e <> -1 /\ unveil_lock_rc e <> -1 /\
   count is_unveil (snd (rsync_receiver e ss fdin fdout root)) = 2%nat).
Proof.
  pose proof (session_split e ss fdin fdout root) as Ha.
  pose proof (setup_more e ss fdin fdout root) as Hm.
  pose proof (setup_spec e ss fdin fdout root) as Hs.
  destruct (rsync_receiver e ss fdin fdout root) as [out t].
  destruct Ha as (r1 & s1 & t1 & tail & Es & -> & Hlate & Hr).
  rewrite Es in Hm, Hs.
  destruct Hs as (Hev1 & _ & Hud & _).
  destruct Hm as (_ & _ & _ & _ & Hcu & _ & _ & _ & _ & _ & _ & _ & Hdel & Hres).
  simpl.
  assert (Un : none is_unveil tail = true) by (by_class Hlate class_late).
  assert (Dl : none is_flist_del tail = true) by (by_class Hlate class_late).
  split.
  - apply precedesb_sound, precedesb_app; [|assumption].
    clear - Hud Hev1. induction t1 as [|x t1 IH]; [reflexivity|].
    simpl in *. apply andb_true_iff in Hud as [Hx Ht].
    apply andb_true_iff in Hev1 as [Hsx Hst].
    rewrite IH by assumption. rewrite andb_true_r.
    unfold needs_sandbox.
    apply class_setup in Hsx. destruct Hsx as (_ & -> & _ & ->). simpl.
    rewrite orb_false_r. exact Hx.
  - intros (ev & Hin & Hev).
    assert (Hcases : r1 = Ret tt \/ none is_flist_del t1 = false).
    { apply elem_of_app in Hin as [Hin|Hin].
      - right. apply none_false_elem. exists ev. split; [assumption|].
        rewrite forallb_forall in Hev1. apply list_elem_of_In, Hev1 in Hin.
        apply class_setup in Hin. destruct Hin as (_ & Hm & _ & Ht).
        unfold needs_sandbox in Hev. rewrite Hm, Ht in Hev. simpl in Hev.
        now rewrite orb_false_r in Hev.
      - destruct Hr as [Hr|Hr]; [now left|exfalso].
        apply andb_true_iff in Hr as [Ht Hm].
        rewrite none_spec in Ht, Hm, Dl.
        unfold needs_sandbox in Hev.
        rewrite (Ht ev Hin), (Hm ev Hin), (Dl ev Hin) in Hev. discriminate. }
    destruct Hcases as [->|Hd].
    + destruct Hres as (_ & _ & _ & _ & Hc & H1 & H2).
      repeat split; try assumption.
      rewrite count_app, (count_none _ _ Un). lia.
    + destruct (Hdel Hd) as (H1 & H2 & Hc). repeat split; try assumption.
      rewrite count_app, (count_none _ _ Un). lia.
Qed.

(** X7: unless both the delete and the recursive option are set, the
    local tree is neither enumerated nor pruned; and when the enumeration
    stores a NULL list nothing is pruned. *)
Theorem deletion_gating
    (e : env) (ss : sess) (fdin fdout : Z) (root : string) :
  (del (sess_opts ss) = false \/ recursive (sess_opts ss) = false ->
   none is_gen_local (snd (rsync_receiver e ss fdin fdout root)) = true /\
   none is_flist_del (snd (rsync_receiver e ss fdin fdout root)) = true) /\
  (gen_local_res e = Some None ->
   none is_flist_del (snd (rsync_receiver e ss fdin fdout root)) = true).
Proof.
  pose proof (session_split e ss fdin fdout root) as Ha.
  pose proof (setup_more e ss fdin fdout root) as Hm.
  destruct (rsync_receiver e ss fdin fdout root) as [out t].
  destruct Ha as (r1 & s1 & t1 & tail & Es & -> & Hlate & _).
  rewrite Es in Hm.
  destruct Hm as (_ & _ & _ & _ & _ & _ & _ & _ & _ & Hopt & Hnull & _).
  simpl.
  assert (G : none is_gen_local tail = true) by (by_class Hlate class_late).
  assert (D : none is_flist_del tail = true) by (by_class Hlate class_late).
  rewrite !none_app, G, D, !andb_true_r. split.
  - intros Hoff.
    assert (Hb : negb (del (sess_opts ss) && recursive (sess_opts ss)) = true).
    { destruct Hoff as [-> | ->]; [reflexivity|]. now rewrite andb_false_r. }
    rewrite Hb in Hopt. simpl in Hopt. now apply andb_true_iff in Hopt.
  - exact Hnull.
Qed.

(** X8: once the list has been received, a sentinel is written only after
    the fix-up loop has run to its end: [post_dir] has then been entered
    once per directory of the list when the preservation of times or of
    permissions is requested, and never otherwise, also when the session
    fails later. *)
Theorem sentinel_after_complete_fixup
    (e : env) (ss : sess) (fdin fdout : Z) (root : string) (l : list flist) :
  flist_recv_res e = Some l ->
  (exists ev, ev ∈ snd (rsync_receiver e ss fdin fdout root) /\
              is_sentinel ev = true) ->
  count is_post_dir (snd (rsync_receiver e ss fdin fdout root)) =
  if preserve_times (sess_opts ss) || preserve_perms (sess_opts ss)
  then count_dirs l else 0%nat.
Proof.
  intros Hl Hsen.
  pose proof (session_anatomy e ss fdin fdout root) as Ha.
  pose proof (setup_spec e ss fdin fdout root) as Hs.
  destruct (rsync_receiver e ss fdin fdout root) as [out t].
  destruct Ha as (r1 & s1 & t1 & t2 & t3 & tc & Es & -> & HL & HF & Hr & Hout).
  rewrite Es in Hs. simpl in *.
  destruct Hs as (Hev1 & _ & _ & _ & Hsen1 & _ & _ & _ & Hres).
  destruct HL as (Hev2 & _).
  destruct HF as (Hev3 & _ & _ & _ & _ & _ & Hfix).
  assert (Hc : forallb cleanup_event tc = true).
  { destruct out as [v| |]; try contradiction.
    - destruct Hout as (-> & _). apply cleanup_events.
    - destruct Hout as (-> & _). reflexivity. }
  assert (S2 : none is_sentinel t2 = true) by (by_class Hev2 class_loop).
  assert (Sc : none is_sentinel tc = true) by (by_class Hc class_cleanup).
  assert (P1 : none is_post_dir t1 = true) by (by_class Hev1 class_setup).
  assert (P2 : none is_post_dir t2 = true) by (by_class Hev2 class_loop).
  assert (Pc : none is_post_dir tc = true) by (by_class Hc class_cleanup).
  apply none_false_elem in Hsen.
  rewrite none_parts, Hsen1, S2, Sc, andb_true_r in Hsen. simpl in Hsen.
  rewrite count_parts, (count_none _ _ P1), (count_none _ _ P2),
    (count_none _ _ Pc), (Hfix Hsen). simpl. rewrite Nat.add_0_r.
  destruct Hr as [->|[_ ->]]; [|discriminate].
  destruct Hres as (_ & Hfl & _). rewrite Hl in Hfl. now injection Hfl as ->.
Qed.

Lemma sentinel_after_complete_fixup_witness :
  fst (run (with_goodbye (cooperative [sub; sub_deep]) false) mirror)
  = Returned 0 /\
  count is_post_dir
    (snd (run (with_goodbye (cooperative [sub; sub_deep]) false) mirror))
  = 2%nat.
Proof.
  split; [reflexivity|].
  apply (sentinel_after_complete_fixup
           (with_goodbye (cooperative [sub; sub_deep]) false) (client mirror)
           0 1 "dst" [sub; sub_deep]).
  - reflexivity.
  - exists (EvWriteInt 1 (-1)). split; [|reflexivity].
    apply list_elem_of_In. vm_compute. tauto.
Defined.

(** X9: when the phase acknowledgement cannot be read or is not -1, no
    statistics are requested, at most one sentinel is written, and the
    call returns 1 only through the empty-list exit. *)
Theorem bad_ack_is_fatal
    (e : env) (ss : sess) (fdin fdout : Z) (root : string) :
  ack_res e <> Some (-1) ->
  none is_stats (snd (rsync_receiver e ss fdin fdout root)) = true /\
  (count is_sentinel (snd (rsync_receiver e ss fdin fdout root)) <= 1)%nat /\
  (fst (rsync_receiver e ss fdin fdout root) = Returned 1 ->
   flist_recv_res e = Some [] /\ top_level (sess_opts ss) = true).
Proof.
  intros Hack.
  pose proof (session_anatomy e ss fdin fdout root) as Ha.
  pose proof (setup_spec e ss fdin fdout root) as Hs.
  destruct (rsync_receiver e ss fdin fdout root) as [out t].
  destruct Ha as (r1 & s1 & t1 & t2 & t3 & tc & Es & -> & HL & HF & Hr & Hout).
  rewrite Es in Hs. simpl in *.
  destruct Hs as (Hev1 & _ & _ & _ & Hsen1 & _ & _ & _ & Hres).
  destruct HL as (Hev2 & _).
  destruct HF as (Hev3 & _ & _ & _ & _ & Hbad & _).
  destruct (Hbad Hack) as [St3 Se3].
  assert (Hc : forallb cleanup_event tc = true).
  { destruct out as [v| |]; try contradiction.
    - destruct Hout as (-> & _). apply cleanup_events.
    - destruct Hout as (-> & _). reflexivity. }
  assert (S2 : none is_sentinel t2 = true) by (by_class Hev2 class_loop).
  assert (Sc : none is_sentinel tc = true) by (by_class Hc class_cleanup).
  assert (T1 : none is_stats t1 = true) by (by_class Hev1 class_setup).
  assert (T2 : none is_stats t2 = true) by (by_class Hev2 class_loop).
  assert (Tc : none is_stats tc = true) by (by_class Hc class_cleanup).
  split; [|split].
  - now rewrite none_parts, T1, T2, St3, Tc.
  - rewrite count_parts, (count_none _ _ Hsen1), (count_none _ _ S2),
      (count_none _ _ Sc). lia.
  - intros ->. destruct Hout as (_ & _ & Hone & Hrc).
    specialize (Hone Hack eq_refl). subst r1. specialize (Hrc eq_refl).
    destruct Hres as [H0|(_ & Hfl & Hlen & Hsrv)]; [lia|].
    unfold top_level. rewrite Hsrv. split; [|reflexivity].
    unfold flsz in Hlen. apply Nat.eqb_eq, length_zero_iff_nil in Hlen.
    now rewrite Hlen in Hfl.
Qed.

Lemma bad_ack_is_fatal_witness :
  none is_stats (snd (run (with_ack (cooperative [sub; sub_a]) (Some 0%Z)) mirror))
  = true /\
  (count is_sentinel
     (snd (run (with_ack (cooperative [sub; sub_a]) (Some 0%Z)) mirror)) <= 1)%nat.
Proof.
  pose proof (bad_ack_is_fatal (with_ack (cooperative [sub; sub_a]) (Some 0%Z))
                (client mirror) 0 1 "dst") as H.
  destruct H as (Hs & Hc & _); [discriminate|].
  split; assumption.
Defined.

Lemma precedesb_split (p q : event -> bool) (a b : trace) :
  none q a = true -> none p b = true -> precedesb p q (a ++ b) = true.
Proof.
  intros Ha Hb. apply precedesb_app; [|assumption]. now apply precedesb_none_r.
Qed.

(** X10: the statistics are requested at most once, after every call of
    the transfer loop, never by the server, and only when the phase
    acknowledgement read was -1. *)
Theorem statistics_gating
    (e : env) (ss : sess) (fdin fdout : Z) (root : string) :
  (count is_stats (snd (rsync_receiver e ss fdin fdout root)) <= 1)%nat /\
  precedes is_transfer is_stats (snd (rsync_receiver e ss fdin fdout root)) /\
  (server (sess_opts ss) = true ->
   none is_stats (snd (rsync_receiver e ss fdin fdout root)) = true) /\
  ((exists ev, ev ∈ snd (rsync_receiver e ss fdin fdout root) /\
               is_stats ev = true) ->
   ack_res e = Some (-1)).
Proof.
  pose proof (session_anatomy e ss fdin fdout root) as Ha.
  pose proof (setup_spec e ss fdin fdout root) as Hs.
  destruct (rsync_receiver e ss fdin fdout root) as [out t].
  destruct Ha as (r1 & s1 & t1 & t2 & t3 & tc & Es & -> & HL & HF & Hr & Hout).
  rewrite Es in Hs. simpl in *.
  destruct Hs as (Hev1 & _).
  destruct HL as (Hev2 & _).
  destruct HF as (Hev3 & Hone & _ & Hsrv & Hack & _).
  assert (Hc : forallb cleanup_event tc = true).
  { destruct out as [v| |]; try contradiction.
    - destruct Hout as (-> & _). apply cleanup_events.
    - destruct Hout as (-> & _). reflexivity. }
  assert (T1 : none is_stats t1 = true) by (by_class Hev1 class_setup).
  assert (T2 : none is_stats t2 = true) by (by_class Hev2 class_loop).
  assert (Tc : none is_stats tc = true) by (by_class Hc class_cleanup).
  assert (R3 : none is_transfer t3 = true) by (by_class Hev3 class_finish_more).
  assert (Rc : none is_transfer tc = true) by (by_class Hc class_cleanup_more).
  split; [|split; [|split]].
  - rewrite count_parts, (count_none _ _ T1), (count_none _ _ T2),
      (count_none _ _ Tc). lia.
  - apply precedesb_sound. rewrite app_assoc. apply precedesb_split.
    + now rewrite none_app, T1, T2.
    + now rewrite none_app, R3, Rc.
  - intros Hserver. now rewrite none_parts, T1, T2, (Hsrv Hserver), Tc.
  - intros Hex. apply none_false_elem in Hex.
    rewrite none_parts, T1, T2, Tc, andb_true_r in Hex. simpl in Hex.
    now apply Hack.
Qed.

Lemma setup_pledge (e : env) (ss : sess) (fdin fdout : Z) (root : string) :
  match setup e ss fdin fdout root init with
  | (_, _, t) => count is_pledge t = 1%nat
  end.
Proof.
  unfold setup, preamble, receive_list, empty_list_exit,
    prepare_destination, enumerate_local, sandbox, delete_extraneous,
    allocate_newdir, init_poll.
  unfold_m. unfold flsz. simpl. repeat step; reflexivity.
Qed.

(** X11: the pledge is the first call of every session and is made once;
    when it fails the call returns 0 having done nothing but log the
    error and release its (empty) lists. *)
Theorem pledge_comes_first
    (e : env) (ss : sess) (fdin fdout : Z) (root : string) :
  snd (rsync_receiver e ss fdin fdout root) !! 0%nat
  = Some (EvPledge "unveil rpath cpath wpath stdio fattr") /\
  count is_pledge (snd (rsync_receiver e ss fdin fdout root)) = 1%nat /\
  (pledge_rc e = -1 ->
   rsync_receiver e ss fdin fdout root =
   (Returned 0,
    [EvPledge "unveil rpath cpath wpath stdio fattr"; EvMsg ERR "pledge";
     EvFlistFree 0; EvFlistFree 0; EvFree])).
Proof.
  split; [|split].
  - pose proof (session_split e ss fdin fdout root) as Ha.
    pose proof (setup_more e ss fdin fdout root) as Hm.
    destruct (rsync_receiver e ss fdin fdout root) as [out t].
    destruct Ha as (r1 & s1 & t1 & tail & Es & -> & _).
    rewrite Es in Hm. destruct Hm as (H0 & _). simpl.
    now apply lookup_app_l_Some.
  - pose proof (session_anatomy e ss fdin fdout root) as Ha.
    pose proof (setup_pledge e ss fdin fdout root) as Hp.
    destruct (rsync_receiver e ss fdin fdout root) as [out t].
    destruct Ha as (r1 & s1 & t1 & t2 & t3 & tc & Es & -> & HL & HF & _ & Hout).
    rewrite Es in Hp. simpl.
    destruct HL as (Hev2 & _). destruct HF as (Hev3 & _).
    assert (Hc : forallb cleanup_event tc = true).
    { destruct out as [v| |]; try contradiction.
      - destruct Hout as (-> & _). apply cleanup_events.
      - destruct Hout as (-> & _). reflexivity. }
    assert (P2 : none is_pledge t2 = true) by (by_class Hev2 class_loop_more).
    assert (P3 : none is_pledge t3 = true)
      by (by_class Hev3 class_finish_more).
    assert (Pc : none is_pledge tc = true) by (by_class Hc class_cleanup_more).
    rewrite count_parts, Hp, (count_none _ _ P2), (count_none _ _ P3),
      (count_none _ _ Pc). reflexivity.
  - intros Hpl.
    unfold rsync_receiver, body, setup, preamble. unfold_m. simpl.
    rewrite Hpl. reflexivity.
Qed.

(** *** The flags of fresh directories *)

Lemma store_newdir_untouched (ws : list (nat * Z)) (nd : list Z) (i : nat) :
  (forall w, w ∈ ws -> fst w <> i) ->
  store_newdir ws nd !! i = nd !! i.
Proof.
  unfold store_newdir. revert nd.
  induction ws as [|w ws IH]; intros nd Hw; simpl; [reflexivity|].
  rewrite IH.
  - apply list_lookup_insert_ne. apply Hw. apply list_elem_of_here.
  - intros w' Hin. apply Hw. now apply list_elem_of_further.
Qed.

Lemma loop_body_newdir (ss : sess) (fdin : Z) (r : iter) (s : locals) (i : nat) :
  match loop_body ss fdin r s with
  | (_, s', _) =>
      (forall w, w ∈ up_newdir r -> fst w <> i) ->
      newdir s' !! i = newdir s !! i
  end.
Proof.
  unfold loop_body, run_uploader, flush_mplex, run_downloader.
  unfold_m. simpl. repeat step; intros Hw; simpl;
    try reflexivity; now apply store_newdir_untouched.
Qed.

Lemma transfer_loop_newdir
    (ss : sess) (fdin : Z) (rs : list iter) (s : locals) (i : nat) :
  match transfer_loop ss fdin rs s with
  | (_, s', _) =>
      (forall r w, r ∈ rs -> w ∈ up_newdir r -> fst w <> i) ->
      newdir s' !! i = newdir s !! i
  end.
Proof.
  revert s. induction rs as [|r rs IH]; intros s; [now intros _|].
  simpl. unfold bind.
  pose proof (loop_body_newdir ss fdin r s i) as Hb.
  destruct (loop_body ss fdin r s) as [[res s1] t1].
  assert (Hhere : (forall r0 w, r0 ∈ r :: rs -> w ∈ up_newdir r0 -> fst w <> i)
                  -> newdir s1 !! i = newdir s !! i).
  { intros Hw. apply Hb. intros w. apply Hw, list_elem_of_here. }
  destruct res as [[]| | |]; try exact Hhere.
  specialize (IH s1).
  destruct (transfer_loop ss fdin rs s1) as [[res2 s2] t2].
  intros Hw. rewrite IH, Hhere; try assumption; try reflexivity.
  intros r0 w Hr0. apply Hw. now apply list_elem_of_further.
Qed.

Lemma newdir_unwritten
    (e : env) (ss : sess) (fdin fdout : Z) (root : string)
    (s1 s2 : locals) (t1 t2 : trace) (res : result unit) :
  setup e ss fdin fdout root init = (Ret tt, s1, t1) ->
  transfer_loop ss fdin (iters e) s1 = (res, s2, t2) ->
  forall i,
    (forall r w, r ∈ iters e -> w ∈ up_newdir r -> fst w <> i) ->
    nth i (newdir s2) 0 = 0.
Proof.
  intros Es El i Hw.
  pose proof (setup_more e ss fdin fdout root) as Hm. rewrite Es in Hm.
  destruct Hm as (_ & _ & _ & _ & _ & _ & _ & _ & _ & _ & _ & _ & _ & Hres).
  destruct Hres as (_ & Hnd & _).
  pose proof (transfer_loop_newdir ss fdin (iters e) s1 i) as Hn.
  rewrite El in Hn. specialize (Hn Hw).
  rewrite nth_lookup, Hn, Hnd.
  destruct (decide (i < flsz s1)%nat) as [Hlt|Hge].
  - now rewrite lookup_replicate_2.
  - rewrite lookup_ge_None_2; [reflexivity|]. rewrite length_replicate. lia.
Qed.




(** X14: in one turn the uploader is called exactly when [poll] is not
    fatal and upload work is due; the downloader exactly when moreover
    the uploader did not fail, the inbound descriptor is readable and,
    with multiplexed reads, the flush succeeded and left payload; the
    turn leaves the loop exactly when the downloader was called and
    returned zero. *)
Theorem turn_schedule (ss : sess) (fdin : Z) (r : iter) (s : locals) :
  match loop_body ss fdin r s with
  | (res, _, t) =>
      (count is_uploader t = 1%nat <->
       poll_fatal r = false /\ upload_due r s = true) /\
      (count is_downloader t = 1%nat <->
       poll_fatal r = false /\
       (upload_due r s = true -> (up_c r <? 0) = false) /\
       inbound_ready r = true /\
       (mplex_reads ss = true ->
        flush_ok r = true /\ (flush_remain r =? 0) = false)) /\
      (res = Ret true <->
       count is_downloader t = 1%nat /\ down_c r = 0 /\ phase s = 0)
  end.
Proof.
  unfold loop_body, run_uploader, flush_mplex, run_downloader, poll_fatal,
    upload_due, inbound_ready.
  unfold_m. unfold flsz. simpl. repeat step.
  all: unfold count; simpl.
  all: repeat split; intros;
    repeat match goal with H : _ /\ _ |- _ => destruct H end;
    simpl in *; try discriminate; try congruence; auto.
  all: try (decode_tests; simpl in *; congruence || lia).
Qed.

(** X15: [post_dir] leaves the locals alone and returns 0 or 1; it
    returns 0 exactly when the time stamp call or the mode call it made
    returned -1; it sets the times (access time now, modification time
    from the list) exactly in a recursive run that is not a dry run and
    preserves times, and the mode exactly when moreover the time stamp
    step did not fail and the directory is flagged as new or permissions
    are preserved. *)
Theorem post_dir_policy
    (e : env) (ss : sess) (i : nat) (rootfd : Z) (f : flist) (nd : Z)
    (s : locals) :
  match post_dir e ss i rootfd f nd s with
  | (res, s', t) =>
      s' = s /\ (res = Ret 0 \/ res = Ret 1) /\
      (res = Ret 0 <->
       times_fail e (sess_opts ss) i = true \/
       (mode_due e (sess_opts ss) i nd = true /\ fchmodat_rc e i = -1)) /\
      count is_utimensat t =
        (if fixup_active (sess_opts ss) && preserve_times (sess_opts ss)
         then 1%nat else 0%nat) /\
      count is_fchmodat t =
        (if mode_due e (sess_opts ss) i nd then 1%nat else 0%nat) /\
      (fixup_active (sess_opts ss) && preserve_times (sess_opts ss) = true ->
       EvUtimensat rootfd (path f) (time_now e i) (mtime (st f)) ∈ t) /\
      (mode_due e (sess_opts ss) i nd = true ->
       EvFchmodat rootfd (path f) (mode (st f)) ∈ t)
  end.
Proof.
  unfold post_dir, mode_due, times_fail, fixup_active. unfold_m. simpl.
  repeat step.
  all: unfold count; simpl.
  all: repeat split; intros;
    repeat match goal with
           | H : _ /\ _ |- _ => destruct H
           | H : _ \/ _ |- _ => destruct H
           end;
    simpl in *; try discriminate; try congruence; auto.
  all: try (decode_tests; simpl in *; congruence || lia).
  all: try (apply list_elem_of_In; simpl; tauto).
Qed.

Lemma none_meta_fchmodat (t : trace) :
  none is_meta_syscall t = true -> none is_fchmodat t = true.
Proof.
  unfold none. rewrite !forallb_forall. intros H ev Hin.
  specialize (H ev Hin). now destruct ev.
Qed.

Lemma post_dir_unflagged
    (e : env) (ss : sess) (i : nat) (rootfd : Z) (f : flist) (s : locals) :
  match post_dir e ss i rootfd f 0 s with
  | (_, _, t) =>
      preserve_perms (sess_opts ss) = false -> none is_fchmodat t = true
  end.
Proof.
  unfold post_dir. unfold_m. simpl. repeat step; intros Hp;
    try reflexivity; discriminate.
Qed.

Lemma fixup_from_unflagged
    (e : env) (ss : sess) (l : list flist) (i : nat) (s : locals) :
  (forall j, nth j (newdir s) 0 = 0) ->
  preserve_perms (sess_opts ss) = false ->
  none is_fchmodat (snd (fixup_from e ss i l s)) = true.
Proof.
  intros Hnd Hpp. revert i s Hnd.
  induction l as [|f l IH]; intros i s Hnd; [reflexivity|].
  simpl. unfold bind at 1.
  destruct (S_ISDIR (mode (st f))) eqn:Hdir; simpl; unfold_m.
  - rewrite Hnd.
    pose proof (post_dir_unflagged e ss i (dfd s) f s) as Hp.
    pose proof (post_dir_spec e ss i (dfd s) f 0 s) as Hq.
    destruct (post_dir e ss i (dfd s) f 0 s) as [[res s1] t1].
    destruct Hq as (-> & _ & _ & _ & Hres). specialize (Hp Hpp).
    destruct res as [z| | |]; try contradiction.
    destruct (z =? 0); simpl.
    + now rewrite !app_nil_r.
    + specialize (IH (S i) (set_idx (S i) s) Hnd).
      destruct (fixup_from e ss (S i) l (set_idx (S i) s)) as [[res2 s2] t2].
      simpl in IH. rewrite !app_nil_r.
      destruct res2; simpl; rewrite ?none_app, ?Hp, ?IH; reflexivity.
  - specialize (IH (S i) (set_idx (S i) s) Hnd).
    destruct (fixup_from e ss (S i) l (set_idx (S i) s)) as [[res2 s2] t2].
    simpl in IH. destruct res2; simpl; exact IH.
Qed.

Lemma finish_unflagged
    (e : env) (ss : sess) (fdin fdout : Z) (s : locals) :
  (forall j, nth j (newdir s) 0 = 0) ->
  preserve_perms (sess_opts ss) = false ->
  none is_fchmodat (snd (finish e ss fdin fdout s)) = true.
Proof.
  intros Hnd Hpp. unfold finish. unfold bind at 1.
  assert (Hfix : none is_fchmodat (snd (fixup_dirs e ss s)) = true).
  { unfold fixup_dirs.
    destruct (preserve_times (sess_opts ss) || preserve_perms (sess_opts ss));
      [|reflexivity].
    unfold_m. simpl.
    pose proof (fixup_from_unflagged e ss (fl s) 0 (set_idx 0 s) Hnd Hpp) as H.
    destruct (fixup_from e ss 0 (fl s) (set_idx 0 s)) as [[res s1] t1].
    exact H. }
  destruct (fixup_dirs e ss s) as [[res1 s1] t1]. simpl in Hfix.
  destruct res1; try exact Hfix.
  pose proof (closing_spec e ss fdin fdout s1) as Hc.
  destruct ((phase_handshake e fdin fdout >> read_stats e ss fdin >>
             goodbye e fdout) s1) as [[res2 s2] t2].
  destruct Hc as (_ & _ & _ & _ & Hm & _). simpl.
  now rewrite none_app, Hfix, (none_meta_fchmodat _ Hm).
Qed.

(** X16: without the preservation of permissions, and when no uploader
    call wrote a flag, no mode is ever applied. *)
Theorem mode_only_when_asked
    (e : env) (ss : sess) (fdin fdout : Z) (root : string) :
  preserve_perms (sess_opts ss) = false ->
  (forall r, r ∈ iters e -> up_newdir r = []) ->
  none is_fchmodat (snd (rsync_receiver e ss fdin fdout root)) = true.
Proof.
  intros Hpp Hup.
  pose proof (receiver_run_shape e ss fdin fdout root) as Hrun.
  pose proof (setup_spec e ss fdin fdout root) as Hs.
  destruct (rsync_receiver e ss fdin fdout root) as [out t]. simpl.
  assert (Hcl : forall s, none is_fchmodat (cleanup s) = true)
    by (intros s; by_class (cleanup_events s) class_cleanup_more).
  assert (Hset : forall r1 s1 t1,
            setup e ss fdin fdout root init = (r1, s1, t1) ->
            none is_fchmodat t1 = true).
  { intros r1 s1 t1 Es. rewrite Es in Hs. destruct Hs as (Hev & _).
    apply none_meta_fchmodat. by_class Hev class_setup. }
  assert (Hloop : forall s1 r2 s2 t2,
            transfer_loop ss fdin (iters e) s1 = (r2, s2, t2) ->
            none is_fchmodat t2 = true).
  { intros s1 r2 s2 t2 El.
    pose proof (transfer_loop_spec ss fdin (iters e) s1) as Hl.
    rewrite El in Hl. destruct Hl as (Hev & _).
    by_class Hev class_loop_more. }
  destruct Hrun as [s1 t1 Es|s1 t1 s2 t2 Es El|s1 t1 s2 t2 Es El
                   |s1 t1 s2 t2 s3 t3 Es El Ef|s1 t1 s2 t2 s3 t3 Es El Ef];
    rewrite ?none_app, ?(Hset _ _ _ Es), ?(Hloop _ _ _ _ El), ?Hcl;
    try reflexivity.
  all: assert (Hnd : forall j, nth j (newdir s2) 0 = 0).
  all: try (intros j;
            apply (newdir_unwritten e ss fdin fdout root s1 s2 t1 t2 _ Es El);
            intros r w Hr Hw; rewrite (Hup r Hr) in Hw;
            now apply elem_of_nil in Hw).
  all: pose proof (finish_unflagged e ss fdin fdout s2 Hnd Hpp) as Hf;
    rewrite Ef in Hf; simpl in Hf; now rewrite Hf.
Qed.

Lemma mode_only_when_asked_witness :
  none is_fchmodat
    (snd (run (with_iters (cooperative [sub; sub_a]) [turn_done 2]) times))
  = true.
Proof.
  apply (mode_only_when_asked
           (with_iters (cooperative [sub; sub_a]) [turn_done 2]) (client times)
           0 1 "dst").
  - reflexivity.
  - intros r Hr. apply list_elem_of_singleton in Hr. subst r. reflexivity.
Defined.

Lemma setup_succeeds (e : env) (ss : sess) (fdin fdout : Z) (root : string) :
  match setup e ss fdin fdout root init with
  | (res, _, _) =>
      reaches_sandbox e (sess_opts ss) ->
      unveil_rc e <> -1 -> unveil_lock_rc e <> -1 ->
      flist_del_ok e = true -> calloc_ok e = true ->
      res = Ret tt
  end.
Proof.
  unfold setup, preamble, receive_list, empty_list_exit,
    prepare_destination, enumerate_local, sandbox, delete_extraneous,
    allocate_newdir, init_poll.
  unfold_m. unfold flsz. simpl. repeat step.
  all: intros (Hpl & Hpre & (l' & Hl & Hne) & Hst & Hdest & Hgen) Hu1 Hu2 Hd Hc.
  all: try reflexivity.
  all: exfalso; decode_tests; congruence || lia.
Qed.

Lemma loop_body_continues (ss : sess) (fdin : Z) (r : iter) (s : locals) :
  match loop_body ss fdin r s with
  | (res, _, _) => turn_continues ss r = true -> res = Ret false
  end.
Proof.
  unfold loop_body, run_uploader, flush_mplex, run_downloader,
    turn_continues, poll_fatal, inbound_ready.
  unfold_m. unfold flsz. simpl. repeat step; intros H; simpl in H;
    try reflexivity; try discriminate.
  all: exfalso; repeat (apply andb_true_iff in H as [H ?]);
    decode_tests; simpl in *; congruence || lia.
Qed.

Lemma loop_body_finishes (ss : sess) (fdin : Z) (r : iter) (s : locals) :
  match loop_body ss fdin r s with
  | (res, _, _) => turn_finishes ss r = true -> phase s = 0 -> res = Ret true
  end.
Proof.
  unfold loop_body, run_uploader, flush_mplex, run_downloader,
    turn_finishes, poll_fatal, inbound_ready.
  unfold_m. unfold flsz. simpl. repeat step; intros H Hph; simpl in H;
    try reflexivity; try discriminate.
  all: exfalso; repeat (apply andb_true_iff in H as [H ?]);
    decode_tests; simpl in *; congruence || lia.
Qed.

Lemma transfer_loop_finishes
    (ss : sess) (fdin : Z) (pre : list iter) (r : iter) (post : list iter)
    (s : locals) :
  forallb (turn_continues ss) pre = true -> turn_finishes ss r = true ->
  phase s = 0 ->
  exists s' t,
    transfer_loop ss fdin (pre ++ r :: post) s = (Ret tt, s', t) /\
    count is_poll t = S (length pre).
Proof.
  intros Hpre Hfin. revert s.
  induction pre as [|r0 pre IH]; intros s Hph; simpl; unfold bind.
  - pose proof (loop_body_finishes ss fdin r s) as Hb.
    pose proof (loop_body_more ss fdin r s) as Hm.
    destruct (loop_body ss fdin r s) as [[res s1] t1].
    rewrite (Hb Hfin Hph). destruct Hm as (Hp & _).
    exists s1, (t1 ++ []). split; [reflexivity|]. now rewrite app_nil_r.
  - simpl in Hpre. apply andb_true_iff in Hpre as [H0 Hpre].
    pose proof (loop_body_continues ss fdin r0 s) as Hb.
    pose proof (loop_body_more ss fdin r0 s) as Hm.
    pose proof (loop_body_spec ss fdin r0 s) as Hs.
    destruct (loop_body ss fdin r0 s) as [[res s1] t1].
    rewrite (Hb H0) in *. destruct Hm as (Hp & _).
    destruct Hs as (_ & _ & Hph1).
    destruct (IH Hpre s1) as (s' & t & -> & Hc); [congruence|].
    exists s', (t1 ++ t). split; [reflexivity|].
    rewrite count_app, Hp, Hc. reflexivity.
Qed.

Lemma post_dir_succeeds
    (e : env) (ss : sess) (i : nat) (rootfd : Z) (f : flist) (nd : Z)
    (s : locals) :
  match post_dir e ss i rootfd f nd s with
  | (res, _, _) =>
      utimensat_rc e i <> -1 -> fchmodat_rc e i <> -1 -> res = Ret 1
  end.
Proof.
  unfold post_dir. unfold_m. simpl. repeat step; intros Hu Hf;
    try reflexivity; exfalso; decode_tests; congruence.
Qed.

Lemma fixup_from_succeeds
    (e : env) (ss : sess) (l : list flist) (i : nat) (s : locals) :
  (forall j, utimensat_rc e j <> -1) -> (forall j, fchmodat_rc e j <> -1) ->
  fst (fst (fixup_from e ss i l s)) = Ret tt.
Proof.
  intros Hu Hf. revert i s.
  induction l as [|f l IH]; intros i s; [reflexivity|].
  simpl. unfold bind at 1.
  destruct (S_ISDIR (mode (st f))) eqn:Hdir; simpl; unfold_m.
  - pose proof (post_dir_succeeds e ss i (dfd s) f (nth i (newdir s) 0) s) as Hp.
    destruct (post_dir e ss i (dfd s) f (nth i (newdir s) 0) s)
      as [[res s1] t1].
    rewrite (Hp (Hu i) (Hf i)). simpl.
    specialize (IH (S i) (set_idx (S i) s1)).
    destruct (fixup_from e ss (S i) l (set_idx (S i) s1)) as [[res2 s2] t2].
    simpl in IH. now rewrite IH.
  - specialize (IH (S i) (set_idx (S i) s)).
    destruct (fixup_from e ss (S i) l (set_idx (S i) s)) as [[res2 s2] t2].
    simpl in IH. now rewrite IH.
Qed.

Lemma closing_succeeds
    (e : env) (ss : sess) (fdin fdout : Z) (s : locals) :
  phase s = 1 ->
  match (phase_handshake e fdin fdout >> read_stats e ss fdin >>
         goodbye e fdout) s with
  | (res, _, _) =>
      phase_write_ok e = true -> ack_res e = Some (-1) ->
      server (sess_opts ss) = true \/ stats_ok e = true ->
      goodbye_ok e = true -> res = Ret tt
  end.
Proof.
  intros Hph. unfold phase_handshake, read_stats, goodbye.
  unfold_m. simpl. rewrite Hph. simpl. repeat step.
  all: intros Hw Ha Hs Hg; try reflexivity.
  all: exfalso;
    repeat match goal with
           | H : Pos.eqb 1 ?q = false |- _ => apply Pos.eqb_neq in H
           end;
    decode_tests; congruence.
Qed.

Lemma finish_succeeds
    (e : env) (ss : sess) (fdin fdout : Z) (s : locals) :
  phase s = 1 ->
  (forall j, utimensat_rc e j <> -1) -> (forall j, fchmodat_rc e j <> -1) ->
  phase_write_ok e = true -> ack_res e = Some (-1) ->
  server (sess_opts ss) = true \/ stats_ok e = true ->
  goodbye_ok e = true ->
  fst (fst (finish e ss fdin fdout s)) = Ret tt.
Proof.
  intros Hph Hu Hf Hw Ha Hs Hg. unfold finish. unfold bind at 1.
  assert (Hfix : fst (fst (fixup_dirs e ss s)) = Ret tt).
  { unfold fixup_dirs.
    destruct (preserve_times (sess_opts ss) || preserve_perms (sess_opts ss));
      [|reflexivity].
    unfold_m. simpl.
    pose proof (fixup_from_succeeds e ss (fl s) 0 (set_idx 0 s) Hu Hf) as H.
    destruct (fixup_from e ss 0 (fl s) (set_idx 0 s)) as [[res s1] t1].
    simpl in H. now rewrite H. }
  pose proof (fixup_dirs_spec e ss s) as Hsp.
  destruct (fixup_dirs e ss s) as [[res1 s1] t1]. simpl in Hfix. subst res1.
  destruct Hsp as (_ & Hph1 & _).
  rewrite <- Hph1 in Hph.
  pose proof (closing_succeeds e ss fdin fdout s1 Hph) as Hc.
  destruct ((phase_handshake e fdin fdout >> read_stats e ss fdin >>
             goodbye e fdout) s1) as [[res2 s2] t2].
  now rewrite (Hc Hw Ha Hs Hg).
Qed.

(** X17: when every collaborator outside the loop succeeds, the turns
    before some turn all continue and that turn reaches a downloader that
    returns zero, the call returns 1, and it has polled once per turn up
    to that one: the turns recorded after it are not run. *)
Theorem cooperative_session_succeeds
    (e : env) (ss : sess) (fdin fdout : Z) (root : string)
    (pre : list iter) (r : iter) (post : list iter) :
  cooperates e (sess_opts ss) ->
  iters e = pre ++ r :: post ->
  forallb (turn_continues ss) pre = true ->
  turn_finishes ss r = true ->
  fst (rsync_receiver e ss fdin fdout root) = Returned 1 /\
  count is_poll (snd (rsync_receiver e ss fdin fdout root)) = S (length pre).
Proof.
  intros (Hreach & Hu1 & Hu2 & Hdel & Hcal & Hut & Hfc & Hpw & Hack & Hst & Hgb)
    Hit Hpre Hfin.
  cut (exists t, rsync_receiver e ss fdin fdout root = (Returned 1, t) /\
                 count is_poll t = S (length pre)).
  { intros (t & -> & Hc). now split. }
  pose proof (setup_succeeds e ss fdin fdout root) as Hs.
  pose proof (setup_spec e ss fdin fdout root) as Hs'.
  pose proof (setup_more e ss fdin fdout root) as Hs''.
  unfold rsync_receiver, body. unfold bind at 1.
  destruct (setup e ss fdin fdout root init) as [[r1 s1] t1].
  rewrite (Hs Hreach Hu1 Hu2 Hdel Hcal) in *.
  destruct Hs' as (_ & _ & _ & _ & _ & _ & _ & Hph1 & _).
  destruct Hs'' as (_ & _ & _ & _ & _ & Hq & _).
  repeat (apply andb_true_iff in Hq as [Hq ?]).
  unfold bind at 1. rewrite Hit.
  destruct (transfer_loop_finishes ss fdin pre r post s1 Hpre Hfin Hph1)
    as (s2 & t2 & El & Hpolls).
  pose proof (transfer_loop_spec ss fdin (pre ++ r :: post) s1) as Hl.
  rewrite El in Hl. destruct Hl as (_ & _ & _ & Hph2).
  rewrite El.
  pose proof (finish_succeeds e ss fdin fdout s2 Hph2 Hut Hfc Hpw Hack Hst Hgb)
    as Hf.
  pose proof (finish_spec e ss fdin fdout s2) as Hf'.
  destruct (finish e ss fdin fdout s2) as [[r3 s3] t3]. simpl in Hf.
  subst r3. destruct Hf' as (_ & _ & _ & Hev3 & _ & Hrc & _).
  simpl. rewrite Hrc. eexists. split; [reflexivity|].
  assert (P3 : none is_poll t3 = true) by (by_class Hev3 class_finish_more).
  assert (Pc : none is_poll (cleanup s3) = true)
    by (by_class (cleanup_events s3) class_cleanup_more).
  rewrite !count_app, (count_none _ _ P3), (count_none _ _ Pc).
  replace (count is_poll t1) with 0%nat by (symmetry; now apply count_none).
  lia.
Qed.


Lemma cooperative_session_succeeds_witness :
  fst (run (cooperative [sub; sub_a]) mirror) = Returned 1 /\
  count is_poll (snd (run (cooperative [sub; sub_a]) mirror)) = 2%nat.
Proof.
  apply (cooperative_session_succeeds (cooperative [sub; sub_a])
           (client mirror) 0 1 "dst" [turn_progress 2] (turn_done 2) []).
  - unfold cooperates, reaches_sandbox. simpl.
    repeat split; try discriminate; auto; try (intros; lia).
    exists [sub; sub_a]. split; [reflexivity|]. left. discriminate.
  - reflexivity.
  - reflexivity.
  - reflexivity.
Defined.

